(** * mcp_git_ingest: workspace cache, tree renderer, file reader and writer

    A shallow embedding of [src/mcp_git_ingest/main.py].

    Conventions.
    - A Python [str] is represented by its UTF-8 encoding, a [string] of
      bytes.  Byte-wise lexicographic order on UTF-8 coincides with Python's
      code-point order, and [startswith] / concatenation commute with the
      encoding.
    - A Python exception is [Raise msg], where [msg] is [str(e)].
    - The filesystem is a tree of [node]s; the functions that touch it run in
      the monad [M], which threads the filesystem, may raise, and records
      every mutating call in a journal of [effect]s.
    - The host is POSIX: [os.path.join] is [posixpath.join] and text-mode
      writes leave line feeds alone ([os.linesep] is a line feed). *)

From Stdlib Require Import ZArith Ascii String Lia.
From stdpp Require Import base list sorting strings gmap.

Local Open Scope Z_scope.

(** ** Characters and string helpers *)

Module Py.

Definition LF : ascii := "010"%char.
Definition CR : ascii := "013"%char.
Definition SLASH : ascii := "/"%char.

Definition nl : string := String LF "".

(** [s.startswith(pre)] *)
Definition startswith (s pre : string) : bool := String.prefix pre s.

(** [s.endswith(c)] for a single character [c] *)
Fixpoint ends_with (s : string) (c : ascii) : bool :=
  match s with
  | "" => false
  | String d r =>
      match r with
      | "" => Ascii.eqb d c
      | _ => ends_with r c
      end
  end.

(** The characters of a hexadecimal digest: [0-9a-f]. *)
Definition is_hex_char (c : ascii) : bool :=
  let n := N_of_ascii c in
  ((48 <=? n)%N && (n <=? 57)%N) || ((97 <=? n)%N && (n <=? 102)%N).

Fixpoint is_hex (s : string) : bool :=
  match s with
  | "" => true
  | String c r => is_hex_char c && is_hex r
  end.

(** [s[:n]] for a non-negative [n] *)
Definition str_take (n : nat) (s : string) : string := String.substring 0 n s.

(** [''.join(l)], which is also what [f.writelines(l)] writes. *)
Fixpoint join_lines (l : list string) : string :=
  match l with
  | [] => ""
  | x :: l' => x +:+ join_lines l'
  end.

(** Glue one character in front of the first line of a list of lines. *)
Definition push_char (c : ascii) (ls : list string) : list string :=
  match ls with
  | [] => [String c ""]
  | l :: ls' => String c l :: ls'
  end.

(** *** Text-mode reading

    [open(p, 'r', encoding='utf-8')] is opened with [newline=None]: on input
    every ["\r\n"] and every lone ["\r"] is translated to ["\n"] before the
    text reaches the caller. *)
Fixpoint universal_newlines (s : string) : string :=
  match s with
  | "" => ""
  | String c r =>
      if Ascii.eqb c CR then
        match r with
        | String d r' =>
            if Ascii.eqb d LF then String LF (universal_newlines r')
            else String LF (universal_newlines r)
        | "" => String LF ""
        end
      else String c (universal_newlines r)
  end.

(** [f.readlines()] on text that was already newline-translated: split after
    every line feed, keep the terminators, no empty last line. *)
Fixpoint readlines (s : string) : list string :=
  match s with
  | "" => []
  | String c r =>
      if Ascii.eqb c LF then nl :: readlines r
      else push_char c (readlines r)
  end.

(** *** [str.splitlines()]

    Line boundaries of [str.splitlines]: LF, CR, CR LF, VT, FF, FS, GS, RS,
    NEL (U+0085), LS (U+2028) and PS (U+2029).  [boundary s] is the number of
    bytes of the boundary that starts [s], or [0%nat] when [s] does not start
    with one. *)
Definition single_break (c : ascii) : bool :=
  let n := N_of_ascii c in
  (n =? 10)%N || (n =? 11)%N || (n =? 12)%N || (n =? 13)%N
  || (n =? 28)%N || (n =? 29)%N || (n =? 30)%N.

Definition boundary (s : string) : nat :=
  match s with
  | "" => 0%nat
  | String c r =>
      if Ascii.eqb c CR then
        match r with
        | String d _ => if Ascii.eqb d LF then 2%nat else 1%nat
        | "" => 1%nat
        end
      else if single_break c then 1%nat
      else if (N_of_ascii c =? 194)%N then
        match r with
        | String d _ => if (N_of_ascii d =? 133)%N then 2%nat else 0%nat
        | "" => 0%nat
        end
      else if (N_of_ascii c =? 226)%N then
        match r with
        | String d (String e _) =>
            if (N_of_ascii d =? 128)%N
               && ((N_of_ascii e =? 168)%N || (N_of_ascii e =? 169)%N)
            then 3%nat else 0%nat
        | _ => 0%nat
        end
      else 0%nat
  end.

(** [skip] counts the bytes of the current boundary still to be dropped. *)
Fixpoint splitlines_from (skip : nat) (s : string) : list string :=
  match s with
  | "" => []
  | String c r =>
      match skip with
      | S k => splitlines_from k r
      | O =>
          match boundary s with
          | O => push_char c (splitlines_from 0 r)
          | S k => "" :: splitlines_from k r
          end
      end
  end.

Definition splitlines (s : string) : list string := splitlines_from 0 s.

(** *** Slice assignment [l[start:stop] = new]

    CPython clamps each bound ([PySlice_AdjustIndices], step 1): a negative
    bound counts from the end and is cut at [0], a bound past the end is cut
    at [len(l)]; a slice whose stop lies before its start is the empty slice
    at [start]. *)
Definition slice_bound (len i : Z) : Z :=
  if i <? 0 then Z.max 0 (i + len) else Z.min i len.

Definition slice_assign {A} (l : list A) (start stop : Z) (new : list A)
  : list A :=
  let len := Z.of_nat (length l) in
  let lo := slice_bound len start in
  let hi := Z.max lo (slice_bound len stop) in
  take (Z.to_nat lo) l ++ new ++ drop (Z.to_nat hi) l.

End Py.

(** ** Exceptions *)

(** The outcome of a Python call: a value, or an [Exception] whose [str(e)] is
    [msg]. *)
Inductive Exc (A : Type) : Type :=
| Ok (a : A)
| Raise (msg : string).
Arguments Ok {A} a.
Arguments Raise {A} msg.

(** ** The filesystem *)

(** What a text-mode UTF-8 read of a file finds: the stored text, or a fault
    (invalid UTF-8, permission denied) with its message. *)
Inductive file_data : Type :=
| Text (raw : string)
| Unreadable (cause : string).

(** What [git.Repo(path)] finds in a directory that is a repository:
    whether it is bare, and the URL of its remote named [origin]. *)
Record git_meta : Type := GitMeta { bare : bool; origin : option string }.

(** [Dir g l] is a directory with listing [l], in the order [os.listdir]
    yields it; [g] is its repository metadata, if it is a repository.
    [NoAccess cause] is a directory that cannot be listed. *)
#[warnings="-register-all"]
Inductive node : Type :=
| File (d : file_data)
| Dir (g : option git_meta) (l : list (string * node))
| NoAccess (cause : string).

(** What [git clone url] produces on an empty target: the working tree, or a
    failure that leaves some files behind. *)
Inductive clone_outcome : Type :=
| Cloned (files : list (string * node))
| Broken (cause : string) (partial : list (string * node)).

Module FS.

Definition is_dir (n : node) : bool :=
  match n with File _ => false | _ => true end.

Fixpoint assoc {A} (k : string) (l : list (string * A)) : option A :=
  match l with
  | [] => None
  | (k', v) :: l' => if String.eqb k k' then Some v else assoc k l'
  end.

(** Replace the entry named [k], or add it at the end. *)
Fixpoint set_entry {A} (k : string) (v : A) (l : list (string * A))
  : list (string * A) :=
  match l with
  | [] => [(k, v)]
  | (k', v') :: l' =>
      if String.eqb k k' then (k, v) :: l' else (k', v') :: set_entry k v l'
  end.

Fixpoint del_entry {A} (k : string) (l : list (string * A))
  : list (string * A) :=
  match l with
  | [] => []
  | (k', v') :: l' =>
      if String.eqb k k' then del_entry k l' else (k', v') :: del_entry k l'
  end.

(** [s.split('/')] *)
Fixpoint split_slash (s : string) : list string :=
  match s with
  | "" => [""]
  | String c r =>
      if Ascii.eqb c Py.SLASH then "" :: split_slash r
      else Py.push_char c (split_slash r)
  end.

(** The components a path resolves through, from the root (the working
    directory is the root): empty components and ["."] are skipped and
    [".."] steps back.  The resolution goes by the text of the path alone.
    The operating system also wants what stands before an empty
    component, a ["."] or a [".."] to be an existing directory, and finds
    nothing at the empty path; the two agree on every path made of names,
    and the statements that take a path apart are about such paths. *)
Definition step (acc : list string) (c : string) : list string :=
  if String.eqb c "" || String.eqb c "." then acc
  else if String.eqb c ".." then removelast acc
  else acc ++ [c].

Definition components (p : string) : list string :=
  fold_left step (split_slash p) [].

Fixpoint find (cs : list string) (n : node) : option node :=
  match cs with
  | [] => Some n
  | c :: cs' =>
      match n with
      | Dir _ l =>
          match assoc c l with
          | Some child => find cs' child
          | None => None
          end
      | _ => None
      end
  end.

(** Put [v] at [cs]; the parent must be a listable directory. *)
Fixpoint put (cs : list string) (v : node) (n : node) : option node :=
  match cs with
  | [] => Some v
  | c :: cs' =>
      match n with
      | Dir g l =>
          match cs' with
          | [] => Some (Dir g (set_entry c v l))
          | _ =>
              match assoc c l with
              | Some child =>
                  match put cs' v child with
                  | Some child' => Some (Dir g (set_entry c child' l))
                  | None => None
                  end
              | None => None
              end
          end
      | _ => None
      end
  end.

(** Remove the entry at [cs] from its parent. *)
Fixpoint del (cs : list string) (n : node) : node :=
  match cs with
  | [] => n
  | c :: cs' =>
      match n with
      | Dir g l =>
          match cs' with
          | [] => Dir g (del_entry c l)
          | _ =>
              match assoc c l with
              | Some child => Dir g (set_entry c (del cs' child) l)
              | None => n
              end
          end
      | _ => n
      end
  end.

(** What [shutil.rmtree(ignore_errors=True)] leaves of the entries of a
    directory it works through, and [None] for an entry it removes: a
    regular file is unlinked; a directory that cannot be opened stays as it
    is, with the error ignored; a directory that can be listed is worked
    through in turn and removed once nothing is left in it.  What is left of
    a directory is no repository any more: the files of its [.git] are
    gone.  A directory that can be listed is taken to be one whose entries
    the process may remove; what cannot be removed is what lies in or
    around a directory that cannot be opened. *)
Fixpoint leftover (n : node) : option node :=
  match n with
  | File _ => None
  | NoAccess cause => Some (NoAccess cause)
  | Dir _ l =>
      match (fix leftovers (l : list (string * node)) : list (string * node) :=
               match l with
               | [] => []
               | (name, child) :: l' =>
                   match leftover child with
                   | Some rest => (name, rest) :: leftovers l'
                   | None => leftovers l'
                   end
               end) l with
      | [] => None
      | rest => Some (Dir None rest)
      end
  end.

(** The same, for a listing. *)
Fixpoint leftovers (l : list (string * node)) : list (string * node) :=
  match l with
  | [] => []
  | (name, child) :: l' =>
      match leftover child with
      | Some rest => (name, rest) :: leftovers l'
      | None => leftovers l'
      end
  end.

(** [mkdir -p]: create the missing directories along [cs]. *)
Fixpoint mkdirs (cs : list string) (n : node) : Exc node :=
  match cs with
  | [] =>
      match n with
      | File _ => Raise "[Errno 17] File exists"
      | _ => Ok n
      end
  | c :: cs' =>
      match n with
      | Dir g l =>
          match mkdirs cs' (default (Dir None []) (assoc c l)) with
          | Ok child' => Ok (Dir g (set_entry c child' l))
          | Raise e => Raise e
          end
      | File _ => Raise "[Errno 20] Not a directory"
      | NoAccess cause => Raise cause
      end
  end.

End FS.

(** The parts of the host that the program reads but never changes.  What
    a failed clone leaves in its target was created by the calling process a
    moment ago, so [shutil.rmtree] can remove all of it. *)
Record Host : Type := MkHost {
  sha256_hexdigest : string → string;   (* hashlib.sha256(s.encode()).hexdigest() *)
  gettempdir : string;                  (* tempfile.gettempdir() *)
  remote : string → clone_outcome;      (* the network, per URL *)
  hexdigest_is_hex : ∀ s, Py.is_hex (sha256_hexdigest s) = true;
  debris_is_removable :
    ∀ url cause partial,
      remote url = Broken cause partial → FS.leftover (Dir None partial) = None
}.

(** ** The monad of the program *)

(** The calls that change the world, as the journal records them. *)
Inductive effect : Type :=
| Rmtree (path : string)
| Makedirs (path : string)
| CloneFrom (url path : string) (failure : option string)
| WriteText (path content : string).

(** A computation reads and updates the filesystem, returns or raises, and
    emits the effects it performed, oldest first. *)
Definition M (A : Type) : Type := node → Exc A * node * list effect.

Definition ret {A} (a : A) : M A := λ fs, (Ok a, fs, []).

Definition raise {A} (msg : string) : M A := λ fs, (Raise msg, fs, []).

Definition bind {A B} (m : M A) (k : A → M B) : M B := λ fs,
  match m fs with
  | (Ok a, fs1, e1) => let '(r, fs2, e2) := k a fs1 in (r, fs2, e1 ++ e2)
  | (Raise msg, fs1, e1) => (Raise msg, fs1, e1)
  end.

(** [try: m  except Exception as e: h e] *)
Definition try_except {A} (m : M A) (h : string → M A) : M A := λ fs,
  match m fs with
  | (Ok a, fs1, e1) => (Ok a, fs1, e1)
  | (Raise msg, fs1, e1) => let '(r, fs2, e2) := h msg fs1 in (r, fs2, e1 ++ e2)
  end.

Declare Scope py_scope.
Delimit Scope py_scope with py.
Notation "x <- m ;; k" := (bind m (λ x, k))
  (at level 100, m at next level, right associativity) : py_scope.
Notation "m ;;; k" := (bind m (λ _, k))
  (at level 100, right associativity) : py_scope.
Local Open Scope py_scope.

(** ** The operating system and git, as the program calls them *)

Module OS.

(** [posixpath.join(a, b)] *)
Definition path_join (a b : string) : string :=
  if Py.startswith b "/" then b
  else if String.eqb a "" || Py.ends_with a Py.SLASH then a +:+ b
  else a +:+ "/" +:+ b.

(** [posixpath.dirname(p)]: everything up to the last slash, without
    trailing slashes unless it consists of slashes only. *)
Fixpoint strip_slashes (rev_head : string) : string :=
  match rev_head with
  | "" => ""
  | String c r => if Ascii.eqb c Py.SLASH then strip_slashes r else rev_head
  end.

Fixpoint drop_to_slash (rev_p : string) : string :=
  match rev_p with
  | "" => ""
  | String c r => if Ascii.eqb c Py.SLASH then rev_p else drop_to_slash r
  end.

Definition path_dirname (p : string) : string :=
  let rev_head := drop_to_slash (String.rev p) in
  match strip_slashes rev_head with
  | "" => String.rev rev_head
  | stripped => String.rev stripped
  end.

Definition lookup (path : string) (fs : node) : option node :=
  FS.find (FS.components path) fs.

(** [os.path.exists(path)] *)
Definition path_exists (path : string) : M bool := λ fs,
  (Ok (if lookup path fs is Some _ then true else false), fs, []).

(** [os.path.isfile(path)] *)
Definition path_isfile (path : string) : M bool := λ fs,
  (Ok (if lookup path fs is Some (File _) then true else false), fs, []).

(** [shutil.rmtree(path, ignore_errors=True)]: a listable directory is
    removed with everything below it that can be deleted; when something
    below it cannot, the directory stays with what is left.  On anything
    else the call fails and the failure is ignored. *)
Definition rmtree (path : string) : M unit := λ fs,
  match lookup path fs with
  | Some (Dir g l) =>
      match FS.leftover (Dir g l) with
      | None => (Ok (), FS.del (FS.components path) fs, [Rmtree path])
      | Some rest =>
          (Ok (), default fs (FS.put (FS.components path) rest fs),
           [Rmtree path])
      end
  | _ => (Ok (), fs, [Rmtree path])
  end.

(** [os.makedirs(path, exist_ok=True)] *)
Definition makedirs (path : string) : M unit := λ fs,
  if String.eqb path "" then
    (Raise "[Errno 2] No such file or directory: ''", fs, [])
  else
    match FS.mkdirs (FS.components path) fs with
    | Ok fs' => (Ok (), fs', [Makedirs path])
    | Raise e => (Raise e, fs, [])
    end.

(** [open(path, 'r', encoding='utf-8')] followed by [f.read()] *)
Definition read_text (path : string) : M string := λ fs,
  match lookup path fs with
  | Some (File (Text raw)) => (Ok (Py.universal_newlines raw), fs, [])
  | Some (File (Unreadable cause)) => (Raise cause, fs, [])
  | Some (Dir _ _) | Some (NoAccess _) => (Raise "[Errno 21] Is a directory", fs, [])
  | None => (Raise "[Errno 2] No such file or directory", fs, [])
  end.

(** [open(path, 'w', encoding='utf-8')] followed by [f.write(content)].
    The call fails where [open] fails, and then changes nothing; a write
    that fails after the file was opened (and so truncated or created) is
    not part of the model. *)
Definition write_text (path content : string) : M unit := λ fs,
  match lookup path fs with
  | Some (Dir _ _) | Some (NoAccess _) => (Raise "[Errno 21] Is a directory", fs, [])
  | _ =>
      match FS.put (FS.components path) (File (Text content)) fs with
      | Some fs' => (Ok (), fs', [WriteText path content])
      | None => (Raise "[Errno 2] No such file or directory", fs, [])
      end
  end.

(** [git.Repo(path)]; [str(InvalidGitRepositoryError(path))] is the path.
    The repository data comes from the directory node: it stands for what
    the [.git] of the directory holds, as long as nothing is written
    there. *)
Definition git_Repo (path : string) : M git_meta := λ fs,
  match lookup path fs with
  | Some (Dir (Some g) _) => (Ok g, fs, [])
  | _ => (Raise path, fs, [])
  end.

(** [repo.remote().url] *)
Definition remote_url (repo : git_meta) : M string :=
  match origin repo with
  | Some url => ret url
  | None => raise "Remote named 'origin' didn't exist"
  end.

(** [git.Repo.clone_from(url, path)]: git refuses a target that is not an
    empty directory; otherwise the transfer decides. *)
Definition clone_from (host : Host) (url path : string) : M unit := λ fs,
  let refuse msg := (Raise msg, fs, [CloneFrom url path (Some msg)]) in
  let populate v :=
    match FS.put (FS.components path) v fs with
    | Some fs' => fs'
    | None => fs
    end in
  match lookup path fs with
  | Some (File _) | Some (Dir _ (_ :: _)) =>
      refuse "destination path already exists and is not an empty directory"
  | Some (NoAccess cause) => refuse cause
  | Some (Dir _ []) | None =>
      match remote host url with
      | Cloned files =>
          match FS.put (FS.components path)
                  (Dir (Some (GitMeta false (Some url))) files) fs with
          | Some fs' => (Ok (), fs', [CloneFrom url path None])
          | None => refuse "could not create leading directories"
          end
      | Broken cause partial =>
          (Raise cause, populate (Dir None partial),
           [CloneFrom url path (Some cause)])
      end
  end.

End OS.

(** ** The program *)

(** *** [get_directory_tree] *)

(** What the loop needs to know of an entry: [None] when
    [os.path.isdir(entry_path)] is false, otherwise the rendering of the
    subdirectory as a function of the prefix it is called with. *)
Definition subtree : Type := option (string → Exc string).

(** The [for i, entry in enumerate(entries)] loop; [len] is
    [len(entries)] and [output] the text accumulated so far. *)
Fixpoint tree_loop (kids : list (string * subtree)) (prefix : string)
    (len : nat) (i : nat) (entries : list string) (output : string)
  : Exc string :=
  match entries with
  | [] => Ok output
  | entry :: rest =>
      if Py.startswith entry ".git" then
        tree_loop kids prefix len (S i) rest output
      else
        let is_last := Z.of_nat i =? Z.of_nat len - 1 in
        let current_prefix := if is_last then "└── " else "├── " in
        let next_prefix := if is_last then "    " else "│   " in
        let output := output +:+ prefix +:+ current_prefix +:+ entry +:+ Py.nl in
        match FS.assoc entry kids with
        | Some (Some render) =>
            match render (prefix +:+ next_prefix) with
            | Ok sub => tree_loop kids prefix len (S i) rest (output +:+ sub)
            | Raise e => Raise e
            end
        | _ => tree_loop kids prefix len (S i) rest output
        end
  end.

(** [get_directory_tree(path, prefix)], on the node that [path] denotes;
    the node of [os.path.join(path, entry)] is the child named [entry]. *)
Fixpoint get_directory_tree (n : node) (prefix : string) {struct n}
  : Exc string :=
  match n with
  | Dir _ l =>
      let kids :=
        (fix kids_of (l : list (string * node)) : list (string * subtree) :=
           match l with
           | [] => []
           | (name, child) :: l' =>
               (name, if FS.is_dir child
                      then Some (get_directory_tree child) else None)
               :: kids_of l'
           end) l in
      let entries := merge_sort String.le (l.*1) in
      tree_loop kids prefix (length entries) 0 entries ""
  | File _ => Raise "[Errno 20] Not a directory"
  | NoAccess cause => Raise cause
  end.

Definition get_directory_tree_at (path : string) : M string := λ fs,
  match OS.lookup path fs with
  | Some n => (get_directory_tree n "", fs, [])
  | None => (Raise "[Errno 2] No such file or directory", fs, [])
  end.

(** *** [modify_file_content] *)

(** Lines 151-156: the list [lines] after the slice assignment. *)
Definition splice (lines : list string) (content : string)
    (start_line end_line : Z) : list string :=
  let start_idx := Z.max 0 (start_line - 1) in
  let end_idx := Z.min (Z.of_nat (length lines)) end_line in
  let new_lines := Py.splitlines content in
  Py.slice_assign lines start_idx end_idx
    (map (λ line, line +:+ Py.nl) new_lines).

Definition modify_file_content (file_path content : string)
    (start_line end_line : option Z) : M unit :=
  match start_line, end_line with
  | Some start_line, Some end_line =>
      text <- OS.read_text file_path ;;
      let lines := Py.readlines text in
      let lines := splice lines content start_line end_line in
      OS.write_text file_path (Py.join_lines lines)
  | _, _ => OS.write_text file_path content
  end.

Section Program.

Context (host : Host).

(** *** [clone_repo] *)

Definition cache_dir (repo_url : string) : string :=
  let repo_hash := Py.str_take 12 (sha256_hexdigest host repo_url) in
  OS.path_join (gettempdir host) ("github_tools_" +:+ repo_hash).

(** Lines 31-38.  [Some p] stands for [return p] inside the [try]. *)
Definition reuse_cached (repo_url temp_dir : string) : M (option string) :=
  present <- OS.path_exists temp_dir ;;
  if present then
    try_except
      (repo <- OS.git_Repo temp_dir ;;
       if bare repo then ret None
       else
         url <- OS.remote_url repo ;;
         if String.eqb url repo_url then ret (Some temp_dir) else ret None)
      (λ _, OS.rmtree temp_dir ;;; ret None)
  else ret None.

(** Lines 41-48. *)
Definition acquire (repo_url temp_dir : string) : M string :=
  OS.makedirs temp_dir ;;;
  try_except
    (OS.clone_from host repo_url temp_dir ;;; ret temp_dir)
    (λ e, OS.rmtree temp_dir ;;; raise ("Failed to clone repository: " +:+ e)).

Definition clone_repo (repo_url : string) : M string :=
  is_local <- OS.path_exists repo_url ;;
  if negb (Py.startswith repo_url "https://github.com/") && is_local then
    ret repo_url
  else
    let temp_dir := cache_dir repo_url in
    cached <- reuse_cached repo_url temp_dir ;;
    match cached with
    | Some path => ret path
    | None => acquire repo_url temp_dir
    end.

(** *** [git_directory_structure] *)

(** Lines 84-89, the body of the [try]. *)
Definition directory_structure_body (repo_url : string) : M string :=
  repo_path <- clone_repo repo_url ;;
  tree <- get_directory_tree_at repo_path ;;
  ret tree.

Definition git_directory_structure (repo_url : string) : M string :=
  try_except (directory_structure_body repo_url)
    (λ e, ret ("Error: " +:+ e)).

(** *** [git_read_important_files] *)

(** The body of the [for file_path in file_paths] loop. *)
Definition read_one (repo_path file_path : string)
    (results : gmap string string) : M (gmap string string) :=
  let full_path := OS.path_join repo_path file_path in
  is_file <- OS.path_isfile full_path ;;
  if negb is_file then
    ret (<[file_path := "Error: File not found"]> results)
  else
    try_except
      (content <- OS.read_text full_path ;;
       ret (<[file_path := content]> results))
      (λ e, ret (<[file_path := "Error reading file: " +:+ e]> results)).

Fixpoint read_loop (repo_path : string) (file_paths : list string)
    (results : gmap string string) : M (gmap string string) :=
  match file_paths with
  | [] => ret results
  | file_path :: rest =>
      results <- read_one repo_path file_path results ;;
      read_loop repo_path rest results
  end.

(** Lines 107-125, the body of the outer [try]. *)
Definition read_files_body (repo_url : string) (file_paths : list string)
  : M (gmap string string) :=
  repo_path <- clone_repo repo_url ;;
  read_loop repo_path file_paths ∅.

Definition git_read_important_files (repo_url : string)
    (file_paths : list string) : M (gmap string string) :=
  try_except (read_files_body repo_url file_paths)
    (λ e, ret {[ "error" := "Failed to process repository: " +:+ e ]}).

(** *** [git_write_file] *)

(** Lines 177-192, the body of the [try]. *)
Definition write_file_body (repo_url file_path content : string)
  : M (gmap string string) :=
  repo_path <- clone_repo repo_url ;;
  let full_path := OS.path_join repo_path file_path in
  OS.makedirs (OS.path_dirname full_path) ;;;
  OS.write_text full_path content ;;;
  ret (<["status" := "success"]>
       (<["message" := "Successfully wrote content to " +:+ file_path]>
        {[ "file_path" := file_path ]})).

Definition git_write_file (repo_url file_path content : string)
  : M (gmap string string) :=
  try_except (write_file_body repo_url file_path content)
    (λ e,
     ret (<["status" := "error"]>
          (<["message" := "Failed to write file: " +:+ e]>
           {[ "file_path" := file_path ]}))).

End Program.

(** ** Vocabulary of the statements *)

(** No line feed occurs in [s]. *)
Fixpoint no_lf (s : string) : bool :=
  match s with
  | "" => true
  | String c r => negb (Ascii.eqb c Py.LF) && no_lf r
  end.

(** No slash occurs in [s]. *)
Fixpoint no_slash (s : string) : bool :=
  match s with
  | "" => true
  | String c r => negb (Ascii.eqb c Py.SLASH) && no_slash r
  end.

(** No carriage return occurs in [s]. *)
Fixpoint no_cr (s : string) : bool :=
  match s with
  | "" => true
  | String c r => negb (Ascii.eqb c Py.CR) && no_cr r
  end.

(** [s] holds exactly one line feed, and it is its last character. *)
Fixpoint lf_terminated (s : string) : bool :=
  match s with
  | "" => false
  | String c r =>
      match r with
      | "" => Ascii.eqb c Py.LF
      | _ => negb (Ascii.eqb c Py.LF) && lf_terminated r
      end
  end.

(** The lines of a file as they are stored: cut after every ["\n"], ["\r\n"]
    or lone ["\r"], terminators kept as they are. *)
Fixpoint raw_lines (s : string) : list string :=
  match s with
  | "" => []
  | String c r =>
      if Ascii.eqb c Py.CR then
        match r with
        | String d r' =>
            if Ascii.eqb d Py.LF
            then String Py.CR Py.nl :: raw_lines r'
            else String Py.CR "" :: raw_lines r
        | "" => [String Py.CR ""]
        end
      else if Ascii.eqb c Py.LF then Py.nl :: raw_lines r
      else Py.push_char c (raw_lines r)
  end.

(** The shape of what [readlines] returns: every line but the last is
    terminated; the last is terminated, or non-empty without a line feed. *)
Fixpoint lines_ok (ls : list string) : Prop :=
  match ls with
  | [] => True
  | l :: ls' =>
      match ls' with
      | [] => lf_terminated l = true ∨ (no_lf l = true ∧ l ≠ "")
      | _ => lf_terminated l = true ∧ lines_ok ls'
      end
  end.

(** *** Directory trees *)

(** Induction on a node, with the hypothesis for every entry of a listing. *)
Fixpoint node_ind' (P : node → Prop)
    (HFile : ∀ d, P (File d))
    (HDir : ∀ g l, Forall (λ e, P e.2) l → P (Dir g l))
    (HNoAccess : ∀ cause, P (NoAccess cause))
    (n : node) : P n :=
  match n with
  | File d => HFile d
  | Dir g l =>
      HDir g l
        ((fix go (l : list (string * node)) : Forall (λ e, P e.2) l :=
            match l with
            | [] => List.Forall_nil (λ e, P e.2)
            | e :: l' =>
                @List.Forall_cons _ (λ e, P e.2) e l'
                  (node_ind' P HFile HDir HNoAccess e.2) (go l')
            end) l)
  | NoAccess cause => HNoAccess cause
  end.

(** The table the loop of [get_directory_tree] consults. *)
Definition kids_of (l : list (string * node)) : list (string * subtree) :=
  map (λ e, (e.1, if FS.is_dir e.2 then Some (get_directory_tree e.2) else None)) l.

(** The entry is not skipped by line 57. *)
Definition shown (entry : string) : bool := negb (Py.startswith entry ".git").

(** The names a directory's rendering lists, in the order it lists them. *)
Definition visible (l : list (string * node)) : list string :=
  List.filter shown (merge_sort String.le (l.*1)).

(** Strictly before, in lexicographic order. *)
Definition str_lt (a b : string) : Prop := String.le a b ∧ a ≠ b.

(** Names are unique within every directory. *)
#[warnings="-register-all"]
Inductive wf : node → Prop :=
| wf_File d : wf (File d)
| wf_NoAccess cause : wf (NoAccess cause)
| wf_Dir g l : NoDup (l.*1) → Forall (λ e, wf e.2) l → wf (Dir g l).

(** A directory that can be listed, and so can every directory the
    rendering descends into. *)
#[warnings="-register-all"]
Inductive readable : node → Prop :=
| readable_Dir g l :
    Forall (λ e, shown e.1 = true → FS.is_dir e.2 = true → readable e.2) l →
    readable (Dir g l).

(** The same directory, whatever order [os.listdir] yields at any level. *)
#[warnings="-register-all"]
Inductive same_tree : node → node → Prop :=
| same_File d : same_tree (File d) (File d)
| same_NoAccess cause : same_tree (NoAccess cause) (NoAccess cause)
| same_Dir g l l1 l2 :
    l ≡ₚ l1 →
    Forall2 (λ a b, a.1 = b.1 ∧ same_tree a.2 b.2) l1 l2 →
    same_tree (Dir g l) (Dir g l2).

(** One emitted entry: its branch glyph, its name, and the text rendered
    for what lies below it. *)
Record item : Type := Item { glyph : string; name : string; below : string }.

Definition render_item (prefix : string) (it : item) : string :=
  prefix +:+ glyph it +:+ name it +:+ Py.nl +:+ below it.

(** What holds of an emitted entry: its glyph is one of the two branch
    glyphs; below a directory stands that directory's rendering under the
    extended prefix, below anything else nothing. *)
Definition item_ok (kids : list (string * subtree)) (prefix : string)
    (it : item) : Prop :=
  glyph it ∈ ["└── "; "├── "]
  ∧ match FS.assoc (name it) kids with
    | Some (Some render) =>
        ∃ next, next ∈ ["    "; "│   "]
                ∧ render (prefix +:+ next) = Ok (below it)
    | _ => below it = ""
    end.

(** The glyph line 61 gives to the entry at position [pos] of a listing of
    [len] entries. *)
Definition glyph_at (len pos : nat) : string :=
  if Z.of_nat pos =? Z.of_nat len - 1 then "└── " else "├── ".

(** The item renders the entry at some position [i + j] of the listing. *)
Definition placed (len i : nat) (entries : list string) (it : item) : Prop :=
  ∃ j, entries !! j = Some (name it) ∧ glyph it = glyph_at len (i + j).

(** Two entries of the loop's table that the loop cannot tell apart. *)
Definition kid_agree (a b : option subtree) : Prop :=
  match a, b with
  | Some (Some f), Some (Some g) => ∀ p, f p = g p
  | Some None, Some None => True
  | None, None => True
  | _, _ => False
  end.

(** [item_ok], read off the listing itself. *)
Definition entry_ok (l : list (string * node)) (prefix : string)
    (it : item) : Prop :=
  glyph it ∈ ["└── "; "├── "]
  ∧ match FS.assoc (name it) l with
    | Some child =>
        if FS.is_dir child
        then ∃ next, next ∈ ["    "; "│   "]
                     ∧ get_directory_tree child (prefix +:+ next)
                       = Ok (below it)
        else below it = ""
    | None => below it = ""
    end.

(** *** Paths made of names *)

(** A path component that names an entry: not empty, not [.], not [..]. *)
Definition proper_name (c : string) : bool :=
  negb (String.eqb c "" || String.eqb c "." || String.eqb c "..").

(** A relative path that is a sequence of names separated by single
    slashes, such as [src/a.py]: what the operating system resolves by
    looking up one name after the other. *)
Definition proper_path (p : string) : bool :=
  forallb proper_name (FS.split_slash p).

(** *** Reading files *)

(** What [git_read_important_files] stores for a requested path, given what
    the path it opens denotes (lines 115--123). *)
Definition read_outcome (n : option node) : string :=
  match n with
  | Some (File (Text raw)) => Py.universal_newlines raw
  | Some (File (Unreadable cause)) => "Error reading file: " +:+ cause
  | _ => "Error: File not found"
  end.

(** ** Sample inputs *)

Definition crlf : string := String Py.CR Py.nl.

(** A file of five lines, each ending in a line feed. *)
Definition five_lines : string :=
  Py.join_lines (map (λ l, l +:+ Py.nl) ["one"; "two"; "three"; "four"; "five"]).

(** A file of three lines with Windows line endings. *)
Definition crlf_text : string :=
  "a" +:+ crlf +:+ "b" +:+ crlf +:+ "c" +:+ crlf.

(** A file of two lines whose last line has no terminator. *)
Definition unterminated_text : string := "a" +:+ Py.nl +:+ "b".

Definition notes_fs (text : string) : node :=
  Dir None [("notes.txt", File (Text text))].

(** A host whose digests are stand-ins, and which can clone one
    repository only. *)
Definition demo_url : string := "https://github.com/example/repo".

Definition demo_digest (url : string) : string :=
  if String.eqb url demo_url
  then "3e1f0c2a9b7d4e5f60718293a4b5c6d7e8f90a1b2c3d4e5f60718293a4b5c6d7"
  else "b10c7a55e0d94f21a3c4e5f60718293a4b5c6d7e8f90a1b2c3d4e5f607182930".

Definition demo_digest_is_hex (url : string)
  : Py.is_hex (demo_digest url) = true :=
  match String.eqb url demo_url as b
    return Py.is_hex
             (if b
              then "3e1f0c2a9b7d4e5f60718293a4b5c6d7e8f90a1b2c3d4e5f60718293a4b5c6d7"
              else "b10c7a55e0d94f21a3c4e5f60718293a4b5c6d7e8f90a1b2c3d4e5f607182930")
           = true
  with
  | true => eq_refl
  | false => eq_refl
  end.

Definition demo_remote (url : string) : clone_outcome :=
  if String.eqb url demo_url
  then Cloned [(".git", Dir None []);
               ("README.md", File (Text ("hello" +:+ Py.nl)));
               ("bin", File (Unreadable "'utf-8' codec can't decode byte 0xff"))]
  else Broken "fatal: repository not found" [(".git", Dir None [])].

Definition demo_debris_is_removable (url cause : string)
    (partial : list (string * node))
  : demo_remote url = Broken cause partial →
    FS.leftover (Dir None partial) = None.
Proof.
  unfold demo_remote. destruct (String.eqb url demo_url); intros H.
  - discriminate H.
  - injection H as _ <-. reflexivity.
Defined.

Definition demo_host : Host := {|
  sha256_hexdigest := demo_digest;
  gettempdir := "/tmp";
  remote := demo_remote;
  hexdigest_is_hex := demo_digest_is_hex;
  debris_is_removable := demo_debris_is_removable
|}.

Definition missing_url : string := "https://github.com/example/missing".

(** A filesystem with an empty temporary directory. *)
Definition empty_tmp : node := Dir None [("tmp", Dir None [])].

(** The cache directory of [demo_url] holds a working copy whose origin is
    another repository. *)
Definition stale_fs : node :=
  Dir None
    [("tmp",
      Dir None
        [("github_tools_3e1f0c2a9b7d",
          Dir (Some (GitMeta false (Some "https://github.com/example/other")))
            [(".git", Dir None []); ("README.md", File (Text "old"))])])].

(** The cache directory of [demo_url] is no repository and holds a
    directory that cannot be opened, and so cannot be removed. *)
Definition locked_fs : node :=
  Dir None
    [("tmp",
      Dir None
        [("github_tools_3e1f0c2a9b7d",
          Dir None
            [("README.md", File (Text "old"));
             ("locked", NoAccess "[Errno 13] Permission denied")])])].

(** A local workspace with a file whose lines end in ["\r\n"]. *)
Definition crlf_workspace : node :=
  Dir None [("work", Dir None [("a.txt", File (Text crlf_text))])].

(** A working copy as [os.listdir] might yield it, with a [.git] directory
    that cannot be listed. *)
Definition repo_tree : node :=
  Dir None
    [("src", Dir None [("b.py", File (Text "")); ("a.py", File (Text ""))]);
     ("README.md", File (Text ""));
     (".git", NoAccess "[Errno 13] Permission denied");
     (".gitignore", File (Text ""))].

(** A directory whose last entry in sorted order is skipped. *)
Definition dotfiles_tree : node :=
  Dir None [(".gitignore", File (Text "")); (".env", File (Text ""))].

(** * Properties *)

(** ** Strings and lines *)

Lemma str_app_cons c s t : String c s +:+ t = String c (s +:+ t).
Proof. reflexivity. Qed.

Lemma str_app_nil_l s : "" +:+ s = s.
Proof. reflexivity. Qed.

Lemma str_app_nil_r s : s +:+ "" = s.
Proof. induction s as [|c s IH]; [done|]. by rewrite str_app_cons, IH. Qed.

Lemma str_app_assoc s t u : (s +:+ t) +:+ u = s +:+ t +:+ u.
Proof. induction s as [|c s IH]; [done|]. by rewrite !str_app_cons, IH. Qed.

Lemma join_lines_app a b :
  Py.join_lines (a ++ b) = Py.join_lines a +:+ Py.join_lines b.
Proof.
  induction a as [|x a IH]; simpl; [done|]. by rewrite IH, str_app_assoc.
Qed.

Lemma join_push_char c ls :
  Py.join_lines (Py.push_char c ls) = String c (Py.join_lines ls).
Proof. by destruct ls. Qed.

Lemma join_readlines s : Py.join_lines (Py.readlines s) = s.
Proof.
  induction s as [|c r IH]; simpl; [done|].
  destruct (Ascii.eqb c Py.LF) eqn:E.
  - apply Ascii.eqb_eq in E as ->. simpl. unfold Py.nl. by rewrite str_app_cons, str_app_nil_l, IH.
  - by rewrite join_push_char, IH.
Qed.

Lemma lf_terminated_nonempty l : lf_terminated l = true → l ≠ "".
Proof. by destruct l. Qed.

Lemma lf_terminated_cons c l :
  Ascii.eqb c Py.LF = false → lf_terminated l = true →
  lf_terminated (String c l) = true.
Proof.
  intros Hc Hl. destruct l as [|d l]; [done|].
  change (negb (Ascii.eqb c Py.LF) && lf_terminated (String d l) = true).
  by rewrite Hc, Hl.
Qed.

Lemma readlines_ok s : lines_ok (Py.readlines s).
Proof.
  induction s as [|c r IH]; simpl; [done|].
  destruct (Ascii.eqb c Py.LF) eqn:E.
  - destruct (Py.readlines r) as [|l ls]; [by left|]. by split.
  - destruct (Py.readlines r) as [|l ls]; simpl.
    + right. by rewrite E.
    + destruct ls as [|l' ls].
      * destruct IH as [IH|[IH ?]].
        -- left. by apply lf_terminated_cons.
        -- right. split; [|done]. simpl. by rewrite E, IH.
      * destruct IH as [IH ?]. split; [|done]. by apply lf_terminated_cons.
Qed.

Lemma lines_ok_elem ls line :
  lines_ok ls → line ∈ ls → lf_terminated line = true ∨ last ls = Some line.
Proof.
  induction ls as [|l ls IH]; intros Hok Hin; [by apply elem_of_nil in Hin|].
  destruct ls as [|l' ls].
  - apply list_elem_of_singleton in Hin as ->. by right.
  - destruct Hok as [Hl Hok]. apply elem_of_cons in Hin as [->|Hin]; [by left|].
    destruct (IH Hok Hin) as [?|?]; [by left|by right].
Qed.

Lemma boundary_lf r : Py.boundary (String Py.LF r) = 1%nat.
Proof. reflexivity. Qed.

Lemma splitlines_no_lf k s :
  Forall (λ l, no_lf l = true) (Py.splitlines_from k s).
Proof.
  revert k. induction s as [|c r IH]; intros k; [constructor|].
  destruct k as [|k]; [|apply IH].
  cbn [Py.splitlines_from].
  destruct (Py.boundary (String c r)) as [|k] eqn:Hb.
  - assert (Ascii.eqb c Py.LF = false) as Hc.
    { destruct (Ascii.eqb c Py.LF) eqn:E; [|done].
      apply Ascii.eqb_eq in E as ->. by rewrite boundary_lf in Hb. }
    specialize (IH 0%nat).
    destruct (Py.splitlines_from 0 r) as [|l ls]; simpl.
    + constructor; [|constructor]. simpl. by rewrite Hc.
    + inversion IH as [|?? Hl Hls]; subst.
      constructor; [|done]. simpl. by rewrite Hc, Hl.
  - constructor; [done|apply IH].
Qed.

Lemma lf_terminated_app_nl l : no_lf l = true → lf_terminated (l +:+ Py.nl) = true.
Proof.
  induction l as [|c l IH]; intros H; [done|].
  simpl in H. apply andb_true_iff in H as [Hc Hl].
  rewrite str_app_cons. apply lf_terminated_cons; [|by apply IH].
  by destruct (Ascii.eqb c Py.LF).
Qed.

Lemma spliced_lines_terminated content :
  Forall (λ l, lf_terminated l = true)
    (map (λ line, line +:+ Py.nl) (Py.splitlines content)).
Proof.
  apply Forall_map. eapply Forall_impl; [apply splitlines_no_lf|].
  intros l. apply lf_terminated_app_nl.
Qed.

(** ** Slice assignment in [modify_file_content] *)

Lemma splice_cut lines content start_line end_line :
  ∃ lo hi : nat,
    (lo ≤ hi ≤ length lines)%nat ∧
    splice lines content start_line end_line
    = take lo lines ++ map (λ line, line +:+ Py.nl) (Py.splitlines content)
      ++ drop hi lines.
Proof.
  unfold splice, Py.slice_assign.
  set (len := Z.of_nat (length lines)).
  set (lo := Py.slice_bound len (Z.max 0 (start_line - 1))).
  set (hi := Z.max lo (Py.slice_bound len (Z.min len end_line))).
  exists (Z.to_nat lo), (Z.to_nat hi). split; [|done].
  assert (0 ≤ lo ≤ len) as Hlo.
  { unfold lo, Py.slice_bound. destruct (Z.ltb_spec (Z.max 0 (start_line - 1)) 0); lia. }
  assert (Py.slice_bound len (Z.min len end_line) ≤ len) as Hhi.
  { unfold Py.slice_bound. destruct (Z.ltb_spec (Z.min len end_line) 0); lia. }
  unfold hi. lia.
Qed.

Lemma splice_inside lines content start_line end_line :
  1 ≤ start_line ≤ end_line → end_line ≤ Z.of_nat (length lines) →
  splice lines content start_line end_line
  = take (Z.to_nat (start_line - 1)) lines
    ++ map (λ line, line +:+ Py.nl) (Py.splitlines content)
    ++ drop (Z.to_nat end_line) lines.
Proof.
  intros Hs He. unfold splice, Py.slice_assign, Py.slice_bound.
  destruct (Z.ltb_spec (Z.max 0 (start_line - 1)) 0); [lia|].
  destruct (Z.ltb_spec (Z.min (Z.of_nat (length lines)) end_line) 0); [lia|].
  do 2 f_equal; [f_equal; lia|]. do 2 f_equal. lia.
Qed.

Lemma splice_beyond lines content start_line end_line :
  Z.of_nat (length lines) < start_line →
  splice lines content start_line end_line
  = lines ++ map (λ line, line +:+ Py.nl) (Py.splitlines content).
Proof.
  intros Hs. unfold splice, Py.slice_assign.
  set (len := Z.of_nat (length lines)).
  assert (Py.slice_bound len (Z.max 0 (start_line - 1)) = len) as ->.
  { unfold Py.slice_bound. destruct (Z.ltb_spec (Z.max 0 (start_line - 1)) 0); lia. }
  assert (Z.max len (Py.slice_bound len (Z.min len end_line)) = len) as ->.
  { unfold Py.slice_bound. destruct (Z.ltb_spec (Z.min len end_line) 0); lia. }
  unfold len. rewrite Nat2Z.id, firstn_all, drop_all. by rewrite app_nil_r.
Qed.

(** ** The filesystem tree *)

Lemma assoc_set_entry_eq {A} k (v : A) l : FS.assoc k (FS.set_entry k v l) = Some v.
Proof.
  induction l as [|[k' v'] l IH]; simpl.
  - by rewrite String.eqb_refl.
  - destruct (String.eqb k k') eqn:E; simpl; by rewrite ?String.eqb_refl, ?E.
Qed.

Lemma assoc_del_entry_eq {A} k (l : list (string * A)) :
  FS.assoc k (FS.del_entry k l) = None.
Proof.
  induction l as [|[k' v'] l IH]; simpl; [done|].
  destruct (String.eqb k k') eqn:E; simpl; by rewrite ?E.
Qed.

Lemma put_step c c' cs v g l :
  FS.put (c :: c' :: cs) v (Dir g l)
  = match FS.assoc c l with
    | Some child =>
        match FS.put (c' :: cs) v child with
        | Some child' => Some (Dir g (FS.set_entry c child' l))
        | None => None
        end
    | None => None
    end.
Proof. reflexivity. Qed.

Lemma del_step c c' cs g l :
  FS.del (c :: c' :: cs) (Dir g l)
  = match FS.assoc c l with
    | Some child => Dir g (FS.set_entry c (FS.del (c' :: cs) child) l)
    | None => Dir g l
    end.
Proof. reflexivity. Qed.

Lemma find_step c cs g l :
  FS.find (c :: cs) (Dir g l)
  = match FS.assoc c l with
    | Some child => FS.find cs child
    | None => None
    end.
Proof. reflexivity. Qed.

Lemma put_find cs v n old :
  FS.find cs n = Some old →
  ∃ n', FS.put cs v n = Some n' ∧ FS.find cs n' = Some v.
Proof.
  revert n. induction cs as [|c cs IH]; intros n Hf.
  - by exists v.
  - destruct n as [d|g l|cause]; [done| |done].
    rewrite find_step in Hf.
    destruct (FS.assoc c l) as [child|] eqn:Hc; [|done].
    destruct cs as [|c' cs].
    + eexists. split; [done|]. by rewrite find_step, assoc_set_entry_eq.
    + destruct (IH child Hf) as (child' & Hp & Hf').
      exists (Dir g (FS.set_entry c child' l)). split.
      * by rewrite put_step, Hc, Hp.
      * by rewrite find_step, assoc_set_entry_eq.
Qed.

Lemma find_del cs n : cs ≠ [] → FS.find cs (FS.del cs n) = None.
Proof.
  revert n. induction cs as [|c cs IH]; intros n Hne; [done|].
  destruct n as [d|g l|cause]; [done| |done].
  destruct cs as [|c' cs].
  - simpl. by rewrite assoc_del_entry_eq.
  - rewrite del_step. destruct (FS.assoc c l) as [child|] eqn:Hc.
    + rewrite find_step, assoc_set_entry_eq. by apply IH.
    + by rewrite find_step, Hc.
Qed.

(** Writing to an existing regular file succeeds and stores the text. *)
Lemma write_text_file path content d fs :
  OS.lookup path fs = Some (File d) →
  ∃ fs', OS.write_text path content fs = (Ok (), fs', [WriteText path content])
         ∧ OS.lookup path fs' = Some (File (Text content)).
Proof.
  intros Hl. unfold OS.write_text. rewrite Hl.
  destruct (put_find _ (File (Text content)) _ _ Hl) as (fs' & Hp & Hf).
  exists fs'. by rewrite Hp.
Qed.

(** A line-range write on an existing readable file: what is written. *)
Lemma modify_range_run path raw content start_line end_line fs :
  OS.lookup path fs = Some (File (Text raw)) →
  let written :=
    Py.join_lines
      (splice (Py.readlines (Py.universal_newlines raw)) content
         start_line end_line) in
  ∃ fs', modify_file_content path content (Some start_line) (Some end_line) fs
         = (Ok (), fs', [WriteText path written])
         ∧ OS.lookup path fs' = Some (File (Text written)).
Proof.
  intros Hl written.
  destruct (write_text_file path written _ fs Hl) as (fs' & Hw & Hf).
  exists fs'. split; [|done].
  unfold modify_file_content, bind, OS.read_text. rewrite Hl.
  fold written. by rewrite Hw.
Qed.

(** ** Reading back what was written *)

Lemma universal_newlines_no_cr_aux s :
  no_cr (Py.universal_newlines s) = true
  ∧ ∀ c, no_cr (Py.universal_newlines (String c s)) = true.
Proof.
  induction s as [|d r [IH1 IH2]].
  - split; [done|]. intros c. simpl. by destruct (Ascii.eqb c Py.CR) eqn:E; simpl; rewrite ?E.
  - split; [apply IH2|]. intros c.
    change (Py.universal_newlines (String c (String d r)))
      with (if Ascii.eqb c Py.CR
            then if Ascii.eqb d Py.LF
                 then String Py.LF (Py.universal_newlines r)
                 else String Py.LF (Py.universal_newlines (String d r))
            else String c (Py.universal_newlines (String d r))).
    destruct (Ascii.eqb c Py.CR) eqn:Ec.
    + destruct (Ascii.eqb d Py.LF); cbn [no_cr]; by rewrite ?IH1, ?IH2.
    + cbn [no_cr]. by rewrite Ec, IH2.
Qed.

Lemma universal_newlines_no_cr s : no_cr (Py.universal_newlines s) = true.
Proof. apply universal_newlines_no_cr_aux. Qed.

Lemma universal_newlines_id s : no_cr s = true → Py.universal_newlines s = s.
Proof.
  induction s as [|c r IH]; intros H; [done|].
  simpl in H. apply andb_true_iff in H as [Hc Hr].
  simpl. destruct (Ascii.eqb c Py.CR); [done|]. by rewrite IH.
Qed.

Lemma raw_lines_no_cr s : no_cr s = true → raw_lines s = Py.readlines s.
Proof.
  induction s as [|c r IH]; intros H; [done|].
  simpl in H. apply andb_true_iff in H as [Hc Hr].
  simpl. destruct (Ascii.eqb c Py.CR); [done|]. by rewrite IH.
Qed.

Lemma no_cr_app s t : no_cr s = true → no_cr t = true → no_cr (s +:+ t) = true.
Proof.
  induction s as [|c s IH]; intros Hs Ht; [done|].
  simpl in Hs. apply andb_true_iff in Hs as [Hc Hs].
  rewrite str_app_cons. simpl. by rewrite Hc, IH.
Qed.

Lemma no_cr_join ls :
  Forall (λ l, no_cr l = true) ls → no_cr (Py.join_lines ls) = true.
Proof. induction 1; simpl; [done|]. by apply no_cr_app. Qed.

Lemma readlines_no_cr s :
  no_cr s = true → Forall (λ l, no_cr l = true) (Py.readlines s).
Proof.
  induction s as [|c r IH]; intros H; [constructor|].
  simpl in H. apply andb_true_iff in H as [Hc Hr]. specialize (IH Hr).
  simpl. destruct (Ascii.eqb c Py.LF).
  - by constructor.
  - destruct IH as [|l ls Hl Hls]; simpl.
    + constructor; [|constructor]. simpl. by rewrite Hc.
    + constructor; [|done]. simpl. by rewrite Hc, Hl.
Qed.

Lemma boundary_cr r : Py.boundary (String Py.CR r) ≠ 0%nat.
Proof. destruct r as [|d r]; [done|]. simpl. by destruct (Ascii.eqb d Py.LF). Qed.

Lemma splitlines_no_cr k s :
  Forall (λ l, no_cr l = true) (Py.splitlines_from k s).
Proof.
  revert k. induction s as [|c r IH]; intros k; [constructor|].
  destruct k as [|k]; [|apply IH].
  cbn [Py.splitlines_from].
  destruct (Py.boundary (String c r)) as [|k] eqn:Hb.
  - assert (Ascii.eqb c Py.CR = false) as Hc.
    { destruct (Ascii.eqb c Py.CR) eqn:E; [|done].
      apply Ascii.eqb_eq in E as ->. by apply boundary_cr in Hb. }
    specialize (IH 0%nat).
    destruct (Py.splitlines_from 0 r) as [|l ls]; simpl.
    + constructor; [|constructor]. simpl. by rewrite Hc.
    + inversion IH as [|?? Hl Hls]; subst.
      constructor; [|done]. simpl. by rewrite Hc, Hl.
  - constructor; [done|apply IH].
Qed.

Lemma spliced_lines_no_cr content :
  Forall (λ l, no_cr l = true)
    (map (λ line, line +:+ Py.nl) (Py.splitlines content)).
Proof.
  apply Forall_map. eapply Forall_impl; [apply splitlines_no_cr|].
  intros l Hl. by apply no_cr_app.
Qed.

Lemma readlines_app_terminated l rest :
  lf_terminated l = true → Py.readlines (l +:+ rest) = l :: Py.readlines rest.
Proof.
  induction l as [|c r IH]; intros H; [done|].
  rewrite str_app_cons. destruct r as [|d r].
  - simpl in H. simpl. by rewrite H, (proj1 (Ascii.eqb_eq _ _) H).
  - change (negb (Ascii.eqb c Py.LF) && lf_terminated (String d r) = true) in H.
    apply andb_true_iff in H as [Hc Hr].
    cbn [Py.readlines]. destruct (Ascii.eqb c Py.LF); [done|].
    by rewrite (IH Hr).
Qed.

Lemma readlines_no_lf l : no_lf l = true → l ≠ "" → Py.readlines l = [l].
Proof.
  induction l as [|c r IH]; intros H Hne; [done|].
  simpl in H. apply andb_true_iff in H as [Hc Hr].
  simpl. destruct (Ascii.eqb c Py.LF); [done|].
  destruct r as [|d r]; [done|]. by rewrite (IH Hr).
Qed.

Lemma readlines_join ls : lines_ok ls → Py.readlines (Py.join_lines ls) = ls.
Proof.
  induction ls as [|l ls IH]; intros Hok; [done|].
  cbn [Py.join_lines]. destruct ls as [|l' ls].
  - destruct Hok as [Ht|[Hn Hne]].
    + by rewrite readlines_app_terminated.
    + simpl. rewrite str_app_nil_r. by apply readlines_no_lf.
  - destruct Hok as [Ht Hok]. rewrite readlines_app_terminated by done.
    by rewrite IH.
Qed.

Lemma lines_ok_take ls n :
  lines_ok ls → (n < length ls)%nat →
  Forall (λ l, lf_terminated l = true) (take n ls).
Proof.
  revert n. induction ls as [|l ls IH]; intros n Hok Hn; [by rewrite take_nil|].
  destruct n as [|n]; [constructor|].
  destruct ls as [|l' ls]; [simpl in Hn; lia|].
  destruct Hok as [Ht Hok]. cbn [take]. constructor; [done|].
  apply IH; [done|]. simpl in *. lia.
Qed.

Lemma lines_ok_drop ls n : lines_ok ls → lines_ok (drop n ls).
Proof.
  revert n. induction ls as [|l ls IH]; intros n Hok; [by rewrite drop_nil|].
  destruct n as [|n]; [done|]. cbn [drop]. apply IH.
  destruct ls as [|l' ls]; [done|]. by destruct Hok.
Qed.

Lemma lines_ok_app ls ls' :
  Forall (λ l, lf_terminated l = true) ls → lines_ok ls' → lines_ok (ls ++ ls').
Proof.
  induction 1 as [|l ls Hl Hls IH]; intros Hok; [done|].
  specialize (IH Hok). change ((l :: ls) ++ ls') with (l :: (ls ++ ls')).
  destruct (ls ++ ls') as [|x xs]; [by left|by split].
Qed.

(** ** Line-range writes *)

(** C2 (amended).  A line-range write with [1 <= start <= end <= n] on a
    readable file of [n] lines writes the lines before [start], then the
    lines of [content] (each with a line feed appended), then the lines after
    [end]; reading the file back yields exactly that list.  The lines
    outside the range are the lines as text-mode reading presents them, that
    is with ["\r\n"] and ["\r"] already turned into ["\n"]; when the file
    holds no carriage return they are its stored lines, byte for byte. *)
Theorem C2_line_range_write_frame path raw content (start_line end_line : Z) fs :
  OS.lookup path fs = Some (File (Text raw)) →
  1 ≤ start_line ≤ end_line →
  end_line ≤ Z.of_nat (length (Py.readlines (Py.universal_newlines raw))) →
  let lines := Py.readlines (Py.universal_newlines raw) in
  let new_lines := map (λ line, line +:+ Py.nl) (Py.splitlines content) in
  let lo := Z.to_nat (start_line - 1) in
  let hi := Z.to_nat end_line in
  ∃ fs' result,
    modify_file_content path content (Some start_line) (Some end_line) fs
    = (Ok (), fs', [WriteText path (Py.join_lines result)])
    ∧ OS.lookup path fs' = Some (File (Text (Py.join_lines result)))
    ∧ Py.readlines (Py.universal_newlines (Py.join_lines result)) = result
    ∧ result = take lo lines ++ new_lines ++ drop hi lines
    ∧ (∀ i, (i < lo)%nat → result !! i = lines !! i)
    ∧ (∀ j, (j < length new_lines)%nat → result !! (lo + j)%nat = new_lines !! j)
    ∧ (∀ i, (hi ≤ i)%nat →
         result !! (lo + length new_lines + (i - hi))%nat = lines !! i)
    ∧ (no_cr raw = true →
         raw_lines raw = lines ∧ raw_lines (Py.join_lines result) = result).
Proof.
  intros Hl Hs He lines new_lines lo hi.
  destruct (modify_range_run path raw content start_line end_line fs Hl)
    as (fs' & Hrun & Hfs').
  fold lines in Hrun, Hfs'.
  rewrite (splice_inside lines content start_line end_line Hs He) in Hrun, Hfs'.
  fold new_lines lo hi in Hrun, Hfs'.
  set (result := take lo lines ++ new_lines ++ drop hi lines) in *.
  assert (lo < length lines)%nat as Hlo by (unfold lo, lines; lia).
  assert (length (take lo lines) = lo) as Hlen by (rewrite length_take; lia).
  assert (Forall (λ l, no_cr l = true) lines) as Hcr.
  { apply readlines_no_cr, universal_newlines_no_cr. }
  assert (no_cr (Py.join_lines result) = true) as Hres_cr.
  { apply no_cr_join. unfold result. rewrite !Forall_app. split_and!.
    - by apply Forall_take.
    - apply spliced_lines_no_cr.
    - by apply Forall_drop. }
  assert (lines_ok result) as Hok.
  { unfold result.
    apply lines_ok_app; [apply lines_ok_take; [apply readlines_ok|done]|].
    apply lines_ok_app; [apply spliced_lines_terminated|].
    apply lines_ok_drop, readlines_ok. }
  assert (Py.readlines (Py.join_lines result) = result) as Hback
    by by apply readlines_join.
  exists fs', result. split_and!; try done.
  - by rewrite universal_newlines_id.
  - intros i Hi. unfold result.
    rewrite lookup_app_l by lia. by apply lookup_take_lt.
  - intros j Hj. unfold result.
    rewrite lookup_app_r by lia. rewrite lookup_app_l by lia.
    f_equal. lia.
  - intros i Hi. unfold result.
    rewrite lookup_app_r by lia. rewrite lookup_app_r by lia.
    rewrite lookup_drop. f_equal. lia.
  - intros Hraw. split.
    + rewrite raw_lines_no_cr by done. unfold lines.
      by rewrite universal_newlines_id.
    + by rewrite raw_lines_no_cr.
Qed.

Lemma C2_line_range_write_frame_witness :
  OS.lookup "notes.txt" (notes_fs five_lines) = Some (File (Text five_lines))
  ∧ 1 ≤ 2 ≤ 3
  ∧ 3 ≤ Z.of_nat (length (Py.readlines (Py.universal_newlines five_lines)))
  ∧ ∃ fs' result,
      modify_file_content "notes.txt" "TWO" (Some 2) (Some 3) (notes_fs five_lines)
      = (Ok (), fs', [WriteText "notes.txt" (Py.join_lines result)]).
Proof.
  assert (3 ≤ Z.of_nat (length (Py.readlines (Py.universal_newlines five_lines))))
    as H3 by (vm_compute; discriminate).
  assert (1 ≤ 2 ≤ 3) as H12 by lia.
  split; [reflexivity|]. split; [exact H12|]. split; [exact H3|].
  destruct (C2_line_range_write_frame "notes.txt" five_lines "TWO" 2 3
              (notes_fs five_lines) eq_refl H12 H3)
    as (fs' & result & Hrun & _).
  by exists fs', result.
Defined.

(** C2 as stated fails: on a file with ["\r\n"] line endings, rewriting
    line 2 also rewrites the stored bytes of line 1 (and 3). *)
Lemma C2_counterexample :
  Z.of_nat (length (Py.readlines (Py.universal_newlines crlf_text))) = 3
  ∧ (modify_file_content "notes.txt" "x" (Some 2) (Some 2) (notes_fs crlf_text)).2
    = [WriteText "notes.txt" ("a" +:+ Py.nl +:+ "x" +:+ Py.nl +:+ "c" +:+ Py.nl)]
  ∧ raw_lines crlf_text !! 0%nat = Some ("a" +:+ crlf)
  ∧ raw_lines ("a" +:+ Py.nl +:+ "x" +:+ Py.nl +:+ "c" +:+ Py.nl) !! 0%nat
    = Some ("a" +:+ Py.nl)
  ∧ "a" +:+ crlf ≠ "a" +:+ Py.nl.
Proof. split_and!; [reflexivity..|discriminate]. Qed.

(** C8 (amended).  In the list a line-range write hands to [writelines],
    every newly spliced line ends in exactly one line feed, and every line
    of the list ends in exactly one line feed unless it is the last line of
    the file as read and that line had no terminator; when the file read
    ends in a line feed (or is empty) every written line is terminated. *)
Theorem C8_written_lines_terminated path raw content (start_line end_line : Z) fs :
  OS.lookup path fs = Some (File (Text raw)) →
  let lines := Py.readlines (Py.universal_newlines raw) in
  let new_lines := map (λ line, line +:+ Py.nl) (Py.splitlines content) in
  ∃ fs' result,
    modify_file_content path content (Some start_line) (Some end_line) fs
    = (Ok (), fs', [WriteText path (Py.join_lines result)])
    ∧ result = splice lines content start_line end_line
    ∧ Forall (λ l, lf_terminated l = true) new_lines
    ∧ (∀ line, line ∈ result →
         lf_terminated line = true
         ∨ (last lines = Some line ∧ lf_terminated line = false))
    ∧ (Forall (λ l, lf_terminated l = true) lines →
       Forall (λ l, lf_terminated l = true) result).
Proof.
  intros Hl lines new_lines.
  destruct (modify_range_run path raw content start_line end_line fs Hl)
    as (fs' & Hrun & _).
  fold lines in Hrun.
  exists fs', (splice lines content start_line end_line).
  split; [done|]. split; [done|].
  destruct (splice_cut lines content start_line end_line)
    as (lo & hi & Hb & ->). fold new_lines.
  split_and!.
  - apply spliced_lines_terminated.
  - intros line Hin.
    destruct (lf_terminated line) eqn:Ht; [by left|right; split; [|done]].
    assert (line ∈ lines) as Hin'.
    { rewrite !elem_of_app in Hin. destruct Hin as [Hin|[Hin|Hin]].
      - by apply (subseteq_take lo).
      - pose proof (spliced_lines_terminated content) as Hnew.
        rewrite Forall_forall in Hnew. specialize (Hnew _ Hin). congruence.
      - by apply (subseteq_drop hi). }
    destruct (lines_ok_elem lines line (readlines_ok _) Hin'); [congruence|done].
  - intros Hall. rewrite !Forall_app. split_and!.
    + by apply Forall_take.
    + apply spliced_lines_terminated.
    + by apply Forall_drop.
Qed.

Lemma C8_written_lines_terminated_witness :
  OS.lookup "notes.txt" (notes_fs five_lines) = Some (File (Text five_lines))
  ∧ ∃ fs' result,
      modify_file_content "notes.txt" "TWO" (Some 2) (Some 3) (notes_fs five_lines)
      = (Ok (), fs', [WriteText "notes.txt" (Py.join_lines result)])
      ∧ Forall (λ l, lf_terminated l = true) result.
Proof.
  split; [reflexivity|].
  destruct (C8_written_lines_terminated "notes.txt" five_lines "TWO" 2 3
              (notes_fs five_lines) eq_refl)
    as (fs' & result & Hrun & _ & _ & _ & Hall).
  exists fs', result. split; [done|]. apply Hall.
  vm_compute. repeat constructor.
Defined.

(** C8 as stated fails: the last line of a file without a final line feed is
    retained as it is, without a terminator. *)
Lemma C8_counterexample :
  (modify_file_content "notes.txt" "x" (Some 1) (Some 1)
     (notes_fs unterminated_text)).2
  = [WriteText "notes.txt" (Py.join_lines ["x" +:+ Py.nl; "b"])]
  ∧ splice (Py.readlines (Py.universal_newlines unterminated_text)) "x" 1 1
    = ["x" +:+ Py.nl; "b"]
  ∧ Py.readlines (Py.join_lines ["x" +:+ Py.nl; "b"]) = ["x" +:+ Py.nl; "b"]
  ∧ lf_terminated "b" = false.
Proof. split_and!; reflexivity. Qed.

(** C9.  With exactly one of [start_line] and [end_line] given, the call is
    the full-file write: the same outcome as with no range, which on an
    existing file succeeds and leaves exactly [content] in it. *)
Theorem C9_half_range_is_full_write path content (start_line end_line : option Z) fs :
  (start_line = None ∧ end_line ≠ None) ∨ (start_line ≠ None ∧ end_line = None) →
  modify_file_content path content start_line end_line fs
  = modify_file_content path content None None fs
  ∧ modify_file_content path content start_line end_line fs
    = OS.write_text path content fs
  ∧ ∀ d, OS.lookup path fs = Some (File d) →
      ∃ fs', modify_file_content path content start_line end_line fs
             = (Ok (), fs', [WriteText path content])
             ∧ OS.lookup path fs' = Some (File (Text content)).
Proof.
  intros H.
  assert (modify_file_content path content start_line end_line fs
          = OS.write_text path content fs) as Heq.
  { destruct H as [[-> _]|[_ ->]]; [done|]. by destruct start_line. }
  split_and!; [done|done|].
  intros d Hl. rewrite Heq. by apply (write_text_file _ _ d).
Qed.

Lemma C9_half_range_is_full_write_witness :
  ((Some 2 = None ∧ (None : option Z) ≠ None)
   ∨ (Some 2 ≠ None ∧ (None : option Z) = None))
  ∧ modify_file_content "notes.txt" "new" (Some 2) None (notes_fs five_lines)
    = OS.write_text "notes.txt" "new" (notes_fs five_lines).
Proof.
  assert ((Some 2 = None ∧ (None : option Z) ≠ None)
          ∨ (Some 2 ≠ None ∧ (None : option Z) = None)) as H
    by (right; split; [discriminate|reflexivity]).
  split; [exact H|].
  exact (proj1 (proj2 (C9_half_range_is_full_write "notes.txt" "new" (Some 2) None
                         (notes_fs five_lines) H))).
Defined.

(** C10.  A line-range write whose [start_line] lies beyond the last line
    removes nothing: the list written is the lines read followed by the
    lines of [content], each with a line feed appended. *)
Theorem C10_start_beyond_end_appends path raw content (start_line end_line : Z) fs :
  OS.lookup path fs = Some (File (Text raw)) →
  Z.of_nat (length (Py.readlines (Py.universal_newlines raw))) < start_line →
  let lines := Py.readlines (Py.universal_newlines raw) in
  let new_lines := map (λ line, line +:+ Py.nl) (Py.splitlines content) in
  splice lines content start_line end_line = lines ++ new_lines
  ∧ Forall (λ l, lf_terminated l = true) new_lines
  ∧ ∃ fs',
      modify_file_content path content (Some start_line) (Some end_line) fs
      = (Ok (), fs', [WriteText path (Py.join_lines (lines ++ new_lines))])
      ∧ OS.lookup path fs'
        = Some (File (Text (Py.universal_newlines raw +:+ Py.join_lines new_lines))).
Proof.
  intros Hl Hs lines new_lines.
  destruct (modify_range_run path raw content start_line end_line fs Hl)
    as (fs' & Hrun & Hfs').
  fold lines in Hrun, Hfs'.
  rewrite (splice_beyond lines content start_line end_line Hs) in Hrun, Hfs'.
  fold new_lines in Hrun, Hfs'.
  split_and!; [by apply splice_beyond|apply spliced_lines_terminated|].
  exists fs'. split; [done|].
  rewrite Hfs', join_lines_app. unfold lines. by rewrite join_readlines.
Qed.

Lemma C10_start_beyond_end_appends_witness :
  OS.lookup "notes.txt" (notes_fs five_lines) = Some (File (Text five_lines))
  ∧ Z.of_nat (length (Py.readlines (Py.universal_newlines five_lines))) < 9
  ∧ splice (Py.readlines (Py.universal_newlines five_lines)) "six" 9 9
    = Py.readlines (Py.universal_newlines five_lines) ++ ["six" +:+ Py.nl].
Proof.
  assert (Z.of_nat (length (Py.readlines (Py.universal_newlines five_lines))) < 9)
    as H9 by (vm_compute; reflexivity).
  split; [reflexivity|]. split; [exact H9|].
  exact (proj1 (C10_start_beyond_end_appends "notes.txt" five_lines "six" 9 9
                  (notes_fs five_lines) eq_refl H9)).
Defined.

(** ** The monad *)

Lemma bind_inv {A B} (m : M A) (k : A → M B) fs r fs' ev :
  bind m k fs = (r, fs', ev) →
  (∃ msg, m fs = (Raise msg, fs', ev) ∧ r = Raise msg)
  ∨ (∃ a fs1 e1 e2,
       m fs = (Ok a, fs1, e1) ∧ k a fs1 = (r, fs', e2) ∧ ev = e1 ++ e2).
Proof.
  unfold bind. destruct (m fs) as [[[a|msg] fs1] e1].
  - destruct (k a fs1) as [[r2 fs2] e2] eqn:Hk. intros [= <- <- <-].
    right. by exists a, fs1, e1, e2.
  - intros [= <- <- <-]. left. by exists msg.
Qed.

Lemma try_except_inv {A} (m : M A) (h : string → M A) fs r fs' ev :
  try_except m h fs = (r, fs', ev) →
  (∃ a, m fs = (Ok a, fs', ev) ∧ r = Ok a)
  ∨ (∃ msg fs1 e1 e2,
       m fs = (Raise msg, fs1, e1) ∧ h msg fs1 = (r, fs', e2) ∧ ev = e1 ++ e2).
Proof.
  unfold try_except. destruct (m fs) as [[[a|msg] fs1] e1].
  - intros [= <- <- <-]. left. by exists a.
  - destruct (h msg fs1) as [[r2 fs2] e2] eqn:Hh. intros [= <- <- <-].
    right. by exists msg, fs1, e1, e2.
Qed.

(** ** [os.makedirs] and [shutil.rmtree] *)

Lemma mkdirs_find cs n n' :
  FS.mkdirs cs n = Ok n' → ∃ m, FS.find cs n' = Some m ∧ FS.is_dir m = true.
Proof.
  revert n n'. induction cs as [|c cs IH]; intros n n' H.
  - destruct n; simplify_eq/=; eauto.
  - destruct n as [d|g l|cause]; [done| |done]. cbn [FS.mkdirs] in H.
    destruct (FS.mkdirs cs (default (Dir None []) (FS.assoc c l)))
      as [child'|e] eqn:Hm; [|done].
    injection H as <-. rewrite find_step, assoc_set_entry_eq. by eapply IH.
Qed.

Lemma makedirs_inv path fs r fs' ev :
  OS.makedirs path fs = (r, fs', ev) →
  (∃ msg, r = Raise msg ∧ fs' = fs ∧ ev = [])
  ∨ (r = Ok () ∧ ev = [Makedirs path]
     ∧ ∃ m, OS.lookup path fs' = Some m ∧ FS.is_dir m = true).
Proof.
  unfold OS.makedirs. destruct (String.eqb path "").
  - intros [= <- <- <-]. left. eauto.
  - destruct (FS.mkdirs (FS.components path) fs) as [fs1|e] eqn:Hm.
    + intros [= <- <- <-]. right. split_and!; [done..|]. by eapply mkdirs_find.
    + intros [= <- <- <-]. left. eauto.
Qed.

Lemma mkdirs_step c cs g l :
  FS.mkdirs (c :: cs) (Dir g l)
  = match FS.mkdirs cs (default (Dir None []) (FS.assoc c l)) with
    | Ok child' => Ok (Dir g (FS.set_entry c child' l))
    | Raise e => Raise e
    end.
Proof. done. Qed.

(** What [os.makedirs] finds at the path afterwards: what was there, or a
    new empty directory. *)
Lemma mkdirs_lookup cs :
  ∀ n n', FS.mkdirs cs n = Ok n' →
          FS.find cs n' = Some (default (Dir None []) (FS.find cs n)).
Proof.
  induction cs as [|c cs IH]; intros n n' H.
  - destruct n; by simplify_eq/=.
  - destruct n as [d|g l|cause]; [done| |done]. rewrite mkdirs_step in H.
    destruct (FS.mkdirs cs (default (Dir None []) (FS.assoc c l)))
      as [child'|e] eqn:Hm; [|done].
    injection H as <-. rewrite !find_step, assoc_set_entry_eq, (IH _ _ Hm).
    destruct (FS.assoc c l) as [child|]; [done|]. by destruct cs.
Qed.

(** *** What [shutil.rmtree] leaves *)

Lemma leftover_Dir g l :
  FS.leftover (Dir g l)
  = match FS.leftovers l with
    | [] => None
    | rest => Some (Dir None rest)
    end.
Proof.
  cbn [FS.leftover].
  match goal with
  | |- match ?x with _ => _ end = _ => assert (x = FS.leftovers l) as ->; [|done]
  end.
  induction l as [|[k c] l IH]; [done|]. cbn [FS.leftovers]. by rewrite IH.
Qed.

(** Nothing of what is left can be deleted by trying again. *)
Lemma leftover_idem n : ∀ rest, FS.leftover n = Some rest → FS.leftover rest = Some rest.
Proof.
  induction n as [d|g l IH|cause] using node_ind'; intros rest H;
    [done| |by injection H as <-].
  assert (FS.leftovers (FS.leftovers l) = FS.leftovers l) as Hidem.
  { clear H. induction l as [|[k c] l IHl]; [done|].
    apply Forall_cons in IH as [Hc Hl]. cbn [FS.leftovers].
    destruct (FS.leftover c) as [rc|] eqn:Ec; [|exact (IHl Hl)].
    cbn [FS.leftovers]. by rewrite (Hc rc Ec), (IHl Hl). }
  rewrite leftover_Dir in H.
  destruct (FS.leftovers l) as [|e l'] eqn:E; [done|]. injection H as <-.
  by rewrite leftover_Dir, Hidem.
Qed.

Lemma rmtree_run path fs :
  ∃ fs', OS.rmtree path fs = (Ok (), fs', [Rmtree path]).
Proof.
  unfold OS.rmtree. destruct (OS.lookup path fs) as [[|g l|]|]; eauto.
  destruct (FS.leftover (Dir g l)); eauto.
Qed.

Lemma rmtree_dir path fs g l :
  OS.lookup path fs = Some (Dir g l) → FS.components path ≠ [] →
  ∃ fs', OS.rmtree path fs = (Ok (), fs', [Rmtree path])
         ∧ OS.lookup path fs' = FS.leftover (Dir g l).
Proof.
  intros Hl Hne. unfold OS.rmtree. rewrite Hl.
  destruct (FS.leftover (Dir g l)) as [rest|].
  - destruct (put_find _ rest _ _ Hl) as (fs' & -> & Hf). eauto.
  - eexists. split; [done|]. by apply find_del.
Qed.

(** What stands at the path after [shutil.rmtree(path, ignore_errors=True)]. *)
Lemma rmtree_lookup path fs :
  FS.components path ≠ [] →
  OS.lookup path (OS.rmtree path fs).1.2
  = match OS.lookup path fs with
    | Some (Dir g l) => FS.leftover (Dir g l)
    | other => other
    end.
Proof.
  intros Hne. destruct (OS.lookup path fs) as [[d|g l|cause]|] eqn:Hl.
  - unfold OS.rmtree. by rewrite Hl.
  - destruct (rmtree_dir _ _ _ _ Hl Hne) as (fs' & -> & Hf). done.
  - unfold OS.rmtree. by rewrite Hl.
  - unfold OS.rmtree. by rewrite Hl.
Qed.

(** ** [clone_repo] *)



(** Lines 41--48, once [os.makedirs] has succeeded. *)
Lemma acquire_after_makedirs host url t fs fs1 :
  OS.makedirs t fs = (Ok (), fs1, [Makedirs t]) →
  acquire host url t fs
  = match OS.clone_from host url t fs1 with
    | (Ok _, fs2, e2) => (Ok t, fs2, Makedirs t :: e2)
    | (Raise msg, fs2, e2) =>
        (Raise ("Failed to clone repository: " +:+ msg),
         (OS.rmtree t fs2).1.2, Makedirs t :: e2 ++ [Rmtree t])
    end.
Proof.
  intros Hm. unfold acquire, bind, try_except. rewrite Hm.
  destruct (OS.clone_from host url t fs1) as [[[[]|msg] fs2] e2]; cbn.
  - by rewrite ?app_nil_r.
  - destruct (rmtree_run t fs2) as (fs3 & ->). cbn. by rewrite ?app_nil_r.
Qed.


(** Lines 31--38 either return the cache directory untouched, or fall
    through having at most attempted to remove it. *)
Lemma reuse_cached_inv url t fs r fs' ev :
  reuse_cached url t fs = (r, fs', ev) →
  (r = Ok (Some t) ∧ fs' = fs ∧ ev = [])
  ∨ (r = Ok None
     ∧ (ev = [] ∧ fs' = fs ∨ ev = [Rmtree t] ∧ fs' = (OS.rmtree t fs).1.2)).
Proof.
  destruct (rmtree_run t fs) as (fs2 & Hrm).
  unfold reuse_cached, bind, try_except, OS.path_exists, OS.git_Repo,
    OS.remote_url, ret, raise.
  destruct (OS.lookup t fs) as [[d|[[b o]|] l|cause]|] eqn:Hl;
    cbn -[OS.rmtree]; rewrite ?Hl, ?Hrm; cbn -[OS.rmtree];
    try destruct b; try destruct o as [o|];
    cbn -[OS.rmtree]; rewrite ?Hl, ?Hrm; cbn -[OS.rmtree];
    try destruct (String.eqb o url); cbn -[OS.rmtree];
    intros [= <- <- <-];
    first [by left | right; split; [done|]; first [by left | by right]].
Qed.

Lemma bind_pure_ok {A B} (m : M A) (k : A → M B) fs a :
  m fs = (Ok a, fs, []) → bind m k fs = k a fs.
Proof. unfold bind. intros ->. by destruct (k a fs) as [[? ?] ?]. Qed.

(** For a locator that is not an existing local path, [clone_repo] is lines
    27--48. *)
Lemma clone_repo_remote host url fs :
  Py.startswith url "https://github.com/" = true ∨ OS.lookup url fs = None →
  clone_repo host url fs
  = bind (reuse_cached url (cache_dir host url))
      (λ cached, match cached with
                 | Some path => ret path
                 | None => acquire host url (cache_dir host url)
                 end) fs.
Proof.
  intros H. unfold clone_repo.
  rewrite (bind_pure_ok _ _ fs _ eq_refl).
  destruct H as [-> | ->]; cbn; [done|]. by rewrite andb_false_r.
Qed.

(** A cache directory that opens as a non-bare working copy whose origin is
    the locator is returned as it is: nothing is removed, created or cloned. *)
Lemma clone_repo_reuses_valid_cache host url fs l :
  Py.startswith url "https://github.com/" = true ∨ OS.lookup url fs = None →
  OS.lookup (cache_dir host url) fs
  = Some (Dir (Some (GitMeta false (Some url))) l) →
  clone_repo host url fs = (Ok (cache_dir host url), fs, []).
Proof.
  intros Hr Hl. rewrite clone_repo_remote by done.
  unfold reuse_cached, bind, try_except, OS.path_exists, OS.git_Repo,
    OS.remote_url, ret. cbn. rewrite ?Hl. cbn. rewrite ?Hl. cbn.
  by rewrite String.eqb_refl.
Qed.

(** A cache directory that does not open as a repository, or has no remote
    named origin, is removed before the acquisition. *)
Lemma clone_repo_removes_unopenable_cache host url fs g l :
  Py.startswith url "https://github.com/" = true ∨ OS.lookup url fs = None →
  OS.lookup (cache_dir host url) fs = Some (Dir g l) →
  g = None ∨ g = Some (GitMeta false None) →
  clone_repo host url fs
  = let '(r, fs', ev) :=
      acquire host url (cache_dir host url)
        (OS.rmtree (cache_dir host url) fs).1.2 in
    (r, fs', Rmtree (cache_dir host url) :: ev).
Proof.
  intros Hr Hl Hg. rewrite clone_repo_remote by done.
  destruct (rmtree_run (cache_dir host url) fs) as (fs2 & Hrm).
  unfold reuse_cached, bind, try_except, OS.path_exists, OS.git_Repo,
    OS.remote_url, ret, raise. cbn -[OS.rmtree]. rewrite ?Hl.
  destruct Hg as [-> | ->]; cbn -[OS.rmtree]; rewrite ?Hl, ?Hrm;
    cbn -[OS.rmtree]; rewrite ?Hrm; cbn -[OS.rmtree];
    by destruct (acquire host url _ _) as [[? ?] ?].
Qed.

(** The missed case: a cache directory that opens as a repository but is
    bare, or has another origin, is not removed; the acquisition runs on it
    as it stands. *)
Lemma clone_repo_keeps_mismatched_cache host url fs g l :
  Py.startswith url "https://github.com/" = true ∨ OS.lookup url fs = None →
  OS.lookup (cache_dir host url) fs = Some (Dir (Some g) l) →
  bare g = true ∨ (∃ o, origin g = Some o ∧ o ≠ url) →
  clone_repo host url fs = acquire host url (cache_dir host url) fs.
Proof.
  intros Hr Hl Hg. rewrite clone_repo_remote by done.
  unfold reuse_cached, bind, try_except, OS.path_exists, OS.git_Repo,
    OS.remote_url, ret. cbn. rewrite ?Hl. cbn. rewrite ?Hl. cbn.
  destruct g as [b o]. cbn in *.
  destruct Hg as [-> | (o' & -> & Hne)]; cbn.
  - by destruct (acquire host url _ _) as [[? ?] ?].
  - destruct b; cbn.
    + by destruct (acquire host url _ _) as [[? ?] ?].
    + apply String.eqb_neq in Hne as ->. cbn.
      by destruct (acquire host url _ _) as [[? ?] ?].
Qed.

(** C1, at the failing input.  The cache directory of the locator holds a
    non-bare working copy whose origin is another repository.  The claim
    has the directory deleted and a fresh acquisition performed; the code
    deletes nothing first, runs [clone_from] on the populated directory,
    which git refuses, and fails; only the cleanup of that failure removes
    the stale directory. *)
Theorem C1_stale_cache_is_cloned_over :
  OS.lookup (cache_dir demo_host demo_url) stale_fs
  = Some (Dir (Some (GitMeta false (Some "https://github.com/example/other")))
            [(".git", Dir None []); ("README.md", File (Text "old"))])
  ∧ clone_repo demo_host demo_url stale_fs
    = (Raise ("Failed to clone repository: "
              +:+ "destination path already exists and is not an empty directory"),
       empty_tmp,
       [Makedirs "/tmp/github_tools_3e1f0c2a9b7d";
        CloneFrom demo_url "/tmp/github_tools_3e1f0c2a9b7d"
          (Some "destination path already exists and is not an empty directory");
        Rmtree "/tmp/github_tools_3e1f0c2a9b7d"]).
Proof. split; reflexivity. Qed.

(** ** The cache path *)

Lemma split_slash_nonempty s : FS.split_slash s ≠ [].
Proof.
  destruct s as [|c r]; cbn; [done|].
  destruct (Ascii.eqb c Py.SLASH); [done|]. by destruct (FS.split_slash r).
Qed.

Lemma push_char_app c l l' :
  l ≠ [] → Py.push_char c (l ++ l') = Py.push_char c l ++ l'.
Proof. by destruct l. Qed.

Lemma split_slash_join a b :
  FS.split_slash (a +:+ "/" +:+ b) = FS.split_slash a ++ FS.split_slash b.
Proof.
  induction a as [|c r IH]; [done|].
  rewrite str_app_cons. cbn [FS.split_slash]. rewrite IH.
  destruct (Ascii.eqb c Py.SLASH); [done|].
  apply push_char_app, split_slash_nonempty.
Qed.

Lemma split_slash_no_slash b : no_slash b = true → FS.split_slash b = [b].
Proof.
  induction b as [|c r IH]; intros H; [done|].
  cbn in H. apply andb_true_iff in H as [Hc Hr].
  cbn. destruct (Ascii.eqb c Py.SLASH); [done|]. by rewrite IH.
Qed.

Lemma ends_with_slash a :
  Py.ends_with a Py.SLASH = true → ∃ a', a = a' +:+ "/".
Proof.
  induction a as [|d r IH]; intros H; [done|].
  destruct r as [|e r].
  - cbn in H. apply Ascii.eqb_eq in H as ->. by exists "".
  - destruct (IH H) as (r' & ->). by exists (String d r').
Qed.

Lemma components_snoc l b :
  String.eqb b "" = false → String.eqb b "." = false →
  String.eqb b ".." = false →
  fold_left FS.step (l ++ [b]) [] = fold_left FS.step l [] ++ [b].
Proof.
  intros H1 H2 H3. rewrite fold_left_app. cbn. unfold FS.step.
  by rewrite H1, H2, H3.
Qed.

Lemma is_hex_no_slash s : Py.is_hex s = true → no_slash s = true.
Proof.
  induction s as [|c r IH]; intros H; [done|].
  cbn in H. apply andb_true_iff in H as [Hc Hr].
  cbn. rewrite (IH Hr), andb_true_r.
  destruct (Ascii.eqb_spec c Py.SLASH) as [->|]; done.
Qed.

Lemma is_hex_take n s : Py.is_hex s = true → Py.is_hex (Py.str_take n s) = true.
Proof.
  unfold Py.str_take. revert s. induction n as [|n IH]; intros s H.
  - by destruct s.
  - destruct s as [|c r]; [done|].
    cbn in H. apply andb_true_iff in H as [Hc Hr].
    cbn. by rewrite Hc, IH.
Qed.

(** The cache directory has a last component of its own: it is never the
    root of the filesystem. *)
Lemma cache_dir_not_root host url : FS.components (cache_dir host url) ≠ [].
Proof.
  unfold cache_dir.
  set (h := Py.str_take 12 (sha256_hexdigest host url)).
  assert (no_slash h = true) as Hh
    by apply is_hex_no_slash, is_hex_take, hexdigest_is_hex.
  set (b := "github_tools_" +:+ h).
  assert (no_slash b = true) as Hb by exact Hh.
  assert (∀ a, FS.components (a +:+ "/" +:+ b) ≠ []) as Hjoin.
  { intros a. unfold FS.components.
    rewrite split_slash_join. rewrite (split_slash_no_slash b Hb).
    rewrite components_snoc by done. by destruct (fold_left _ _ _). }
  unfold OS.path_join. change (Py.startswith b "/") with false. cbn match.
  destruct (String.eqb_spec (gettempdir host) "") as [->|_]; cbn [orb].
  - change ("" +:+ b) with b. unfold FS.components.
    by rewrite (split_slash_no_slash b Hb).
  - destruct (Py.ends_with (gettempdir host) Py.SLASH) eqn:He; [|apply Hjoin].
    destruct (ends_with_slash _ He) as (a' & ->).
    rewrite str_app_assoc. apply Hjoin.
Qed.

(** Lines 41--48 when the clone fails: the failure is wrapped, and what
    stands at the path afterwards is what [rmtree] could not delete of what
    stood there before. *)
Lemma acquire_fail host url t fs r fs' ev cause :
  FS.components t ≠ [] →
  acquire host url t fs = (r, fs', ev) →
  CloneFrom url t (Some cause) ∈ ev →
  r = Raise ("Failed to clone repository: " +:+ cause)
  ∧ ev = [Makedirs t; CloneFrom url t (Some cause); Rmtree t]
  ∧ OS.lookup t fs' = OS.lookup t fs ≫= FS.leftover.
Proof.
  intros Hne H Hin.
  destruct (OS.makedirs t fs) as [[[[]|msg] fs1] e1] eqn:Hm.
  2:{ unfold acquire, bind in H. rewrite Hm in H. injection H as _ _ <-.
      apply makedirs_inv in Hm as [(? & _ & _ & ->)|(? & _)]; [|done].
      by apply elem_of_nil in Hin. }
  assert (e1 = [Makedirs t]
          ∧ ∃ m, OS.lookup t fs1 = Some m ∧ FS.is_dir m = true
                 ∧ m = default (Dir None []) (OS.lookup t fs))
    as (-> & m & Hl1 & Hd & Hm0).
  { unfold OS.makedirs in Hm. destruct (String.eqb t ""); [done|].
    destruct (FS.mkdirs (FS.components t) fs) as [fs1'|] eqn:Hmk; [|done].
    injection Hm as <- <-. split; [done|].
    destruct (mkdirs_find _ _ _ Hmk) as (m & Hf & Hd).
    exists m. split_and!; [done..|].
    rewrite (mkdirs_lookup _ _ _ Hmk) in Hf. by injection Hf. }
  rewrite (acquire_after_makedirs _ _ _ _ _ Hm) in H.
  assert (∀ c, CloneFrom url t (Some cause)
               ∈ [Makedirs t; CloneFrom url t (Some c); Rmtree t] → c = cause)
    as Hcause.
  { intros c Hc. rewrite !elem_of_cons, elem_of_nil in Hc.
    destruct Hc as [?|[Heq|[?|[]]]]; [done| |done]. by injection Heq. }
  unfold OS.clone_from in H. rewrite Hl1 in H. cbv beta zeta in H.
  destruct m as [d|g [|e l]|c]; [done| | |].
  - destruct (remote host url) as [files|c partial] eqn:Hrem.
    + destruct (put_find _ (Dir (Some (GitMeta false (Some url))) files) _ _ Hl1)
        as (fs2 & Hp & _).
      rewrite Hp in H. injection H as _ _ <-.
      rewrite !elem_of_cons, elem_of_nil in Hin.
      by destruct Hin as [?|[?|[]]].
    + destruct (put_find _ (Dir None partial) _ _ Hl1) as (fs2 & Hp & Hf2).
      rewrite Hp in H. injection H as <- <- <-.
      rewrite (Hcause c Hin). split_and!; [done..|].
      rewrite (rmtree_lookup _ _ Hne). unfold OS.lookup at 1. rewrite Hf2.
      rewrite (debris_is_removable host _ _ _ Hrem).
      destruct (OS.lookup t fs) as [x|]; [|done]. cbn in Hm0. by subst x.
  - injection H as <- <- <-.
    rewrite (Hcause _ Hin). split_and!; [done..|].
    rewrite (rmtree_lookup _ _ Hne), Hl1.
    destruct (OS.lookup t fs) as [x|]; [|done]. cbn in Hm0. by subst x.
  - injection H as <- <- <-.
    rewrite (Hcause _ Hin). split_and!; [done..|].
    rewrite (rmtree_lookup _ _ Hne), Hl1.
    destruct (OS.lookup t fs) as [x|]; [|done]. cbn in Hm0. by subst x.
Qed.

Lemma acquire_fail_not_file host url t fs r fs' ev cause :
  acquire host url t fs = (r, fs', ev) →
  CloneFrom url t (Some cause) ∈ ev →
  ∀ d, OS.lookup t fs ≠ Some (File d).
Proof.
  intros H Hin d Hl. unfold acquire, bind, OS.makedirs in H.
  destruct (String.eqb t "").
  { injection H as _ _ <-. by apply elem_of_nil in Hin. }
  destruct (FS.mkdirs (FS.components t) fs) as [fs1|e] eqn:Hmk.
  - destruct (mkdirs_find _ _ _ Hmk) as (m & Hf & Hd).
    rewrite (mkdirs_lookup _ _ _ Hmk) in Hf. unfold OS.lookup in Hl.
    rewrite Hl in Hf. injection Hf as <-. done.
  - injection H as _ _ <-. by apply elem_of_nil in Hin.
Qed.

Lemma swept_lookup t fs :
  FS.components t ≠ [] →
  (∀ d, OS.lookup t fs ≠ Some (File d)) →
  OS.lookup t fs ≫= FS.leftover = OS.lookup t (OS.rmtree t fs).1.2.
Proof.
  intros Hne Hnf. rewrite (rmtree_lookup _ _ Hne).
  destruct (OS.lookup t fs) as [[d|g l|c]|]; [by destruct (Hnf d)|done..].
Qed.

(** C4 (amended).  When [clone_from] into the cache directory fails with
    [cause], [clone_repo] raises ["Failed to clone repository: " + cause]
    and its last two effects are that clone and the removal of the cache
    directory.  The removal ignores what it cannot delete: after the call
    the cache path holds what [shutil.rmtree(ignore_errors=True)] leaves of
    the cache directory as it was before the call -- nothing the failed
    clone put there -- and it does not exist when it did not exist
    before. *)
Theorem C4_failed_clone_cleans_up host url fs r fs' ev cause :
  clone_repo host url fs = (r, fs', ev) →
  CloneFrom url (cache_dir host url) (Some cause) ∈ ev →
  r = Raise ("Failed to clone repository: " +:+ cause)
  ∧ (∃ before,
       ev = before ++ [CloneFrom url (cache_dir host url) (Some cause);
                       Rmtree (cache_dir host url)])
  ∧ OS.lookup (cache_dir host url) fs'
    = OS.lookup (cache_dir host url) (OS.rmtree (cache_dir host url) fs).1.2
  ∧ (OS.lookup (cache_dir host url) fs = None →
     OS.lookup (cache_dir host url) fs' = None).
Proof.
  set (t := cache_dir host url). intros H Hin.
  pose proof (cache_dir_not_root host url) as Hne. fold t in Hne.
  assert (r = Raise ("Failed to clone repository: " +:+ cause)
          ∧ (∃ before, ev = before ++ [CloneFrom url t (Some cause); Rmtree t])
          ∧ OS.lookup t fs' = OS.lookup t (OS.rmtree t fs).1.2)
    as (Hr & Hev & Hl).
  { unfold clone_repo in H.
    rewrite (bind_pure_ok _ _ fs _ eq_refl) in H. fold t in H.
    destruct (negb _ && _).
    { injection H as <- <- <-. by apply elem_of_nil in Hin. }
    apply bind_inv in H
      as [(msg & H & ->)|(cached & fs1 & e1 & e2 & H & Ha & ->)].
    { apply reuse_cached_inv in H as [(? & _)|(? & _)]; done. }
    apply reuse_cached_inv in H as [(Hc & -> & ->)|(Hc & He1)].
    { injection Hc as ->. injection Ha as <- <- <-. by apply elem_of_nil in Hin. }
    injection Hc as ->.
    assert (CloneFrom url t (Some cause) ∈ e2) as Hin2.
    { apply elem_of_app in Hin as [Hin|Hin]; [|done].
      destruct He1 as [[-> _]|[-> _]]; [by apply elem_of_nil in Hin|].
      by apply list_elem_of_singleton in Hin. }
    pose proof (acquire_fail_not_file _ _ _ _ _ _ _ _ Ha Hin2) as Hnf.
    destruct (acquire_fail host url t fs1 r fs' e2 cause Hne Ha Hin2)
      as (-> & -> & Hl).
    split; [done|]. split.
    { exists (e1 ++ [Makedirs t]). by rewrite <- app_assoc. }
    rewrite Hl, (swept_lookup _ _ Hne Hnf).
    destruct He1 as [[_ ->]|[_ ->]]; [done|].
    rewrite !(rmtree_lookup _ _ Hne).
    destruct (OS.lookup t fs) as [[d|g l|c]|]; [done| |done..].
    destruct (FS.leftover (Dir g l)) as [[d|g' l'|c]|] eqn:E; [done| |done..].
    apply (leftover_idem _ _ E). }
  split_and!; [done..|].
  intros Hnone. rewrite Hl, (rmtree_lookup _ _ Hne). by rewrite Hnone.
Qed.

Lemma C4_failed_clone_cleans_up_witness :
  clone_repo demo_host missing_url empty_tmp
  = (Raise ("Failed to clone repository: " +:+ "fatal: repository not found"),
     empty_tmp,
     [Makedirs "/tmp/github_tools_b10c7a55e0d9";
      CloneFrom missing_url "/tmp/github_tools_b10c7a55e0d9"
        (Some "fatal: repository not found");
      Rmtree "/tmp/github_tools_b10c7a55e0d9"])
  ∧ OS.lookup (cache_dir demo_host missing_url) empty_tmp = None.
Proof.
  assert (clone_repo demo_host missing_url empty_tmp
          = (Raise ("Failed to clone repository: " +:+ "fatal: repository not found"),
             empty_tmp,
             [Makedirs "/tmp/github_tools_b10c7a55e0d9";
              CloneFrom missing_url "/tmp/github_tools_b10c7a55e0d9"
                (Some "fatal: repository not found");
              Rmtree "/tmp/github_tools_b10c7a55e0d9"])) as Hrun
    by reflexivity.
  split; [exact Hrun|].
  refine (proj1 (proj2 (proj2 (C4_failed_clone_cleans_up demo_host missing_url
                                 empty_tmp _ _ _ "fatal: repository not found"
                                 Hrun _)))).
  apply list_elem_of_further, list_elem_of_here.
Defined.

(** C4 as stated fails: the cache directory of the locator is no
    repository and holds a directory that cannot be opened.  The removal
    before the acquisition leaves that directory in place, git refuses to
    clone into the non-empty cache directory, the call fails, and the
    cleanup leaves the cache directory behind once more: a cache entry that
    is no workspace persists after the failed call. *)
Lemma C4_counterexample :
  OS.lookup (cache_dir demo_host demo_url) locked_fs
  = Some (Dir None [("README.md", File (Text "old"));
                    ("locked", NoAccess "[Errno 13] Permission denied")])
  ∧ ∃ fs',
      clone_repo demo_host demo_url locked_fs
      = (Raise ("Failed to clone repository: "
                +:+ "destination path already exists and is not an empty directory"),
         fs',
         [Rmtree "/tmp/github_tools_3e1f0c2a9b7d";
          Makedirs "/tmp/github_tools_3e1f0c2a9b7d";
          CloneFrom demo_url "/tmp/github_tools_3e1f0c2a9b7d"
            (Some "destination path already exists and is not an empty directory");
          Rmtree "/tmp/github_tools_3e1f0c2a9b7d"])
      ∧ OS.lookup (cache_dir demo_host demo_url) fs'
        = Some (Dir None [("locked", NoAccess "[Errno 13] Permission denied")]).
Proof. split; [reflexivity|]. eexists. split; reflexivity. Qed.

(** ** [git_read_important_files] *)

(** One round of the loop never raises, changes nothing, and records the
    outcome of its own path only. *)
Lemma read_one_run repo_path file_path results fs :
  ∃ value,
    read_one repo_path file_path results fs
    = (Ok (<[file_path := value]> results), fs, [])
    ∧ match OS.lookup (OS.path_join repo_path file_path) fs with
      | Some (File (Text raw)) => value = Py.universal_newlines raw
      | Some (File (Unreadable cause)) => value = "Error reading file: " +:+ cause
      | _ => value = "Error: File not found"
      end.
Proof.
  unfold read_one, bind, try_except, OS.path_isfile, OS.read_text, ret.
  destruct (OS.lookup (OS.path_join repo_path file_path) fs)
    as [[[raw|cause]|g l|cause]|] eqn:Hl; cbn; rewrite ?Hl; cbn; eauto.
Qed.

Lemma read_loop_run repo_path file_paths results fs :
  ∃ results',
    read_loop repo_path file_paths results fs = (Ok results', fs, [])
    ∧ dom results' = dom results ∪ list_to_set file_paths
    ∧ (∀ p, p ∉ file_paths → results' !! p = results !! p)
    ∧ ∀ p, p ∈ file_paths →
        match OS.lookup (OS.path_join repo_path p) fs with
        | Some (File (Text raw)) =>
            results' !! p = Some (Py.universal_newlines raw)
        | Some (File (Unreadable cause)) =>
            results' !! p = Some ("Error reading file: " +:+ cause)
        | _ => results' !! p = Some "Error: File not found"
        end.
Proof.
  revert results. induction file_paths as [|fp rest IH]; intros results.
  - exists results. split_and!; [done| |done|].
    + by rewrite list_to_set_nil, (right_id_L ∅ (∪)).
    + intros p Hp. by apply elem_of_nil in Hp.
  - destruct (read_one_run repo_path fp results fs) as (value & Hone & Hval).
    destruct (IH (<[fp := value]> results)) as (results' & Hrun & Hdom & Hout & Hin).
    exists results'. split_and!.
    + cbn [read_loop]. unfold bind. by rewrite Hone, Hrun.
    + by rewrite Hdom, dom_insert_L, list_to_set_cons, (comm_L (∪) {[fp]}), (assoc_L (∪)).
    + intros p Hp. apply not_elem_of_cons in Hp as [Hne Hp].
      rewrite Hout by done. by rewrite lookup_insert_ne.
    + intros p Hp. destruct (decide (p ∈ rest)) as [Hr|Hr]; [by apply Hin|].
      apply elem_of_cons in Hp as [->|Hp]; [|done].
      rewrite (Hout fp Hr), lookup_insert_eq.
      destruct (OS.lookup (OS.path_join repo_path fp) fs) as [[[raw|cause]| |]|];
        by rewrite Hval.
Qed.

(** C3 (amended).  Once the workspace is resolved,
    [git_read_important_files] returns a mapping whose keys are exactly the
    requested paths; a path that is not an existing regular file maps to
    ["Error: File not found"], a file whose read fails maps to
    ["Error reading file: "] followed by the cause, and any other file maps
    to its whole text as a UTF-8 text-mode read returns it: with every
    ["\r\n"] and lone ["\r"] turned into ["\n"], which is the stored text
    itself when that holds no carriage return.  The value of a path depends
    on that path alone. *)
Theorem C3_read_many_isolates_failures host url file_paths fs repo_path fs1 ev :
  clone_repo host url fs = (Ok repo_path, fs1, ev) →
  ∃ results,
    git_read_important_files host url file_paths fs = (Ok results, fs1, ev)
    ∧ dom results = list_to_set file_paths
    ∧ ∀ p, p ∈ file_paths →
        match OS.lookup (OS.path_join repo_path p) fs1 with
        | Some (File (Text raw)) =>
            results !! p = Some (Py.universal_newlines raw)
            ∧ (no_cr raw = true → results !! p = Some raw)
        | Some (File (Unreadable cause)) =>
            results !! p = Some ("Error reading file: " +:+ cause)
        | _ => results !! p = Some "Error: File not found"
        end.
Proof.
  intros Hclone.
  destruct (read_loop_run repo_path file_paths ∅ fs1)
    as (results & Hrun & Hdom & _ & Hin).
  exists results. split_and!.
  - unfold git_read_important_files, try_except, read_files_body, bind.
    rewrite Hclone, Hrun. by rewrite app_nil_r.
  - by rewrite Hdom, dom_empty_L, (left_id_L ∅ (∪)).
  - intros p Hp. specialize (Hin p Hp).
    destruct (OS.lookup (OS.path_join repo_path p) fs1) as [[[raw|cause]| |]|];
      try done.
    split; [done|]. intros Hcr. by rewrite Hin, universal_newlines_id.
Qed.

Lemma C3_read_many_isolates_failures_witness :
  clone_repo demo_host demo_url empty_tmp
  = (Ok "/tmp/github_tools_3e1f0c2a9b7d",
     (clone_repo demo_host demo_url empty_tmp).1.2,
     (clone_repo demo_host demo_url empty_tmp).2)
  ∧ ∃ results,
      (git_read_important_files demo_host demo_url
         ["README.md"; "missing.txt"; "bin"] empty_tmp).1.1 = Ok results
      ∧ dom results = list_to_set ["README.md"; "missing.txt"; "bin"].
Proof.
  assert (clone_repo demo_host demo_url empty_tmp
          = (Ok "/tmp/github_tools_3e1f0c2a9b7d",
             (clone_repo demo_host demo_url empty_tmp).1.2,
             (clone_repo demo_host demo_url empty_tmp).2)) as Hrun
    by reflexivity.
  split; [exact Hrun|].
  destruct (C3_read_many_isolates_failures demo_host demo_url
              ["README.md"; "missing.txt"; "bin"] empty_tmp _ _ _ Hrun)
    as (results & Hread & Hdom & _).
  exists results. split; [by rewrite Hread|exact Hdom].
Defined.

(** C3 as stated fails: a file whose lines end in ["\r\n"] is not
    returned with its full content; every ["\r\n"] comes back as
    ["\n"]. *)
Lemma C3_counterexample :
  OS.lookup (OS.path_join "work" "a.txt") crlf_workspace
  = Some (File (Text crlf_text))
  ∧ (∃ results,
       git_read_important_files demo_host "work" ["a.txt"] crlf_workspace
       = (Ok results, crlf_workspace, [])
       ∧ results !! "a.txt"
         = Some ("a" +:+ Py.nl +:+ "b" +:+ Py.nl +:+ "c" +:+ Py.nl))
  ∧ "a" +:+ Py.nl +:+ "b" +:+ Py.nl +:+ "c" +:+ Py.nl ≠ crlf_text.
Proof.
  split_and!; [reflexivity| |discriminate].
  eexists. split; [reflexivity|]. vm_compute. reflexivity.
Qed.

(** ** The boundary operations *)

Lemma try_except_ret {A} (m : M A) (f : string → A) fs :
  try_except m (λ e, ret (f e)) fs
  = match m fs with
    | (Ok a, fs', ev) => (Ok a, fs', ev)
    | (Raise msg, fs', ev) => (Ok (f msg), fs', ev)
    end.
Proof.
  unfold try_except, ret. destruct (m fs) as [[[a|msg] fs'] ev]; [done|].
  by rewrite app_nil_r.
Qed.

(** C5.  Each boundary operation returns a value on every input: what its
    [try] body returns, or, when the body raises [msg], the error value
    built from [msg] -- the string ["Error: " + msg], the mapping
    [{"error": "Failed to process repository: " + msg}], and the record with
    status ["error"], message ["Failed to write file: " + msg] and the
    requested [file_path]. *)
Theorem C5_boundary_operations_never_raise host url file_paths file_path content fs :
  (∃ text fs' ev,
     git_directory_structure host url fs = (Ok text, fs', ev)
     ∧ (directory_structure_body host url fs = (Ok text, fs', ev)
        ∨ ∃ msg, directory_structure_body host url fs = (Raise msg, fs', ev)
                 ∧ text = "Error: " +:+ msg))
  ∧ (∃ results fs' ev,
       git_read_important_files host url file_paths fs = (Ok results, fs', ev)
       ∧ (read_files_body host url file_paths fs = (Ok results, fs', ev)
          ∨ ∃ msg, read_files_body host url file_paths fs = (Raise msg, fs', ev)
                   ∧ results
                     = {[ "error" := "Failed to process repository: " +:+ msg ]}))
  ∧ (∃ status fs' ev,
       git_write_file host url file_path content fs = (Ok status, fs', ev)
       ∧ status !! "file_path" = Some file_path
       ∧ ((write_file_body host url file_path content fs = (Ok status, fs', ev)
           ∧ status !! "status" = Some "success"
           ∧ status !! "message"
             = Some ("Successfully wrote content to " +:+ file_path))
          ∨ ∃ msg, write_file_body host url file_path content fs
                   = (Raise msg, fs', ev)
                   ∧ status !! "status" = Some "error"
                   ∧ status !! "message" = Some ("Failed to write file: " +:+ msg))).
Proof.
  split_and!.
  - unfold git_directory_structure. rewrite try_except_ret.
    destruct (directory_structure_body host url fs) as [[[text|msg] fs'] ev];
      eauto 10.
  - unfold git_read_important_files. rewrite try_except_ret.
    destruct (read_files_body host url file_paths fs) as [[[results|msg] fs'] ev];
      eauto 10.
  - unfold git_write_file. rewrite try_except_ret.
    destruct (write_file_body host url file_path content fs)
      as [[[status|msg] fs'] ev] eqn:Hbody.
    + assert (status = <["status" := "success"]>
                (<["message" := "Successfully wrote content to " +:+ file_path]>
                 {[ "file_path" := file_path ]})) as ->.
      { unfold write_file_body in Hbody.
        repeat (apply bind_inv in Hbody
                  as [(? & _ & ?)|(? & ? & ? & ? & _ & Hbody & _)]; [done|]).
        by injection Hbody as <- _ _. }
      do 3 eexists. split_and!; [done|done|]. left. by split_and!.
    + do 3 eexists. split_and!; [done|done|]. right. exists msg. by split_and!.
Qed.

(** ** [get_directory_tree] *)

Lemma get_directory_tree_Dir g l prefix :
  get_directory_tree (Dir g l) prefix
  = tree_loop (kids_of l) prefix (length (merge_sort String.le (l.*1))) 0
      (merge_sort String.le (l.*1)) "".
Proof.
  cbn [get_directory_tree]. f_equal.
  induction l as [|[k c] l IH]; [done|]. cbn. by rewrite IH.
Qed.

Lemma assoc_kids_of k l :
  FS.assoc k (kids_of l)
  = (λ c, if FS.is_dir c then Some (get_directory_tree c) else None)
    <$> FS.assoc k l.
Proof.
  induction l as [|[k' c] l IH]; [done|]. cbn.
  by destruct (String.eqb k k').
Qed.

Lemma assoc_elem {A} k (v : A) l : FS.assoc k l = Some v → (k, v) ∈ l.
Proof.
  induction l as [|[k' v'] l IH]; [done|]. cbn.
  destruct (String.eqb_spec k k') as [->|_].
  - intros [= ->]. left.
  - intros H. right. by apply IH.
Qed.

Lemma assoc_None {A} k (l : list (string * A)) :
  FS.assoc k l = None ↔ k ∉ l.*1.
Proof.
  induction l as [|[k' v'] l IH]; cbn.
  - split; [intros _; apply not_elem_of_nil|done].
  - rewrite not_elem_of_cons. destruct (String.eqb_spec k k') as [->|Hne].
    + split; [done|]. by intros [? _].
    + rewrite IH. split; [done|]. by intros [_ ?].
Qed.

Lemma elem_assoc {A} k (v : A) l :
  NoDup (l.*1) → (k, v) ∈ l → FS.assoc k l = Some v.
Proof.
  induction l as [|[k' v'] l IH]; intros Hnd Hin; [by apply elem_of_nil in Hin|].
  cbn in Hnd. apply NoDup_cons in Hnd as [Hk Hnd].
  apply elem_of_cons in Hin as [[= <- <-]|Hin]; cbn.
  - by rewrite String.eqb_refl.
  - destruct (String.eqb_spec k k') as [->|_]; [|by apply IH].
    destruct Hk. change k' with ((k', v).1). by apply list_elem_of_fmap_2.
Qed.

Lemma placed_skip len i entry rest it :
  placed len (S i) rest it → placed len i (entry :: rest) it.
Proof.
  intros (j & Hj & Hg). exists (S j). split; [done|].
  by replace (i + S j)%nat with (S i + j)%nat by lia.
Qed.

(** The loop, from any position and with any text already accumulated:
    it appends one rendered item per entry that is not skipped, with the
    glyph of the entry's position. *)
Lemma tree_loop_items (kids : list (string * subtree)) prefix len entries :
  (∀ entry render p,
     entry ∈ entries → shown entry = true →
     FS.assoc entry kids = Some (Some render) → ∃ s, render p = Ok s) →
  ∀ i output,
  ∃ items,
    tree_loop kids prefix len i entries output
    = Ok (output +:+ Py.join_lines (map (render_item prefix) items))
    ∧ map name items = List.filter shown entries
    ∧ Forall (item_ok kids prefix) items
    ∧ Forall (placed len i entries) items.
Proof.
  induction entries as [|entry rest IH]; intros Hkids i output.
  - exists []. cbn. by rewrite str_app_nil_r.
  - assert (∀ entry render p,
              entry ∈ rest → shown entry = true →
              FS.assoc entry kids = Some (Some render) → ∃ s, render p = Ok s)
      as Hrest by (intros ??? Hin; apply Hkids; by right).
    specialize (IH Hrest). cbn [tree_loop List.filter]. unfold shown at 1 3.
    destruct (Py.startswith entry ".git") eqn:Hgit; cbn [negb].
    { destruct (IH (S i) output) as (items & Hrun & Hnames & Hok & Hpos).
      exists items. split_and!; [done..|].
      eapply Forall_impl; [exact Hpos|]. intros it. apply placed_skip. }
    fold (glyph_at len i).
    set (is_last := Z.of_nat i =? Z.of_nat len - 1).
    set (cur := glyph_at len i).
    set (next := if is_last then "    " else "│   ").
    assert (cur ∈ ["└── "; "├── "]) as Hcur.
    { unfold cur, glyph_at. fold is_last. destruct is_last; [left|right; left]. }
    assert (next ∈ ["    "; "│   "]) as Hnext.
    { unfold next. destruct is_last; [left|right; left]. }
    assert (∀ below, placed len i (entry :: rest) (Item cur entry below))
      as Hhere.
    { intros below. exists 0%nat. split; [done|]. cbn. by rewrite Nat.add_0_r. }
    destruct (FS.assoc entry kids) as [[render|]|] eqn:Hk; rewrite ?Hk.
    + destruct (Hkids entry render (prefix +:+ next)) as (sub & Hsub);
        [left|by unfold shown; rewrite Hgit|done|].
      rewrite Hsub.
      destruct (IH (S i) ((output +:+ prefix +:+ cur +:+ entry +:+ Py.nl) +:+ sub))
        as (items & -> & Hnames & Hok & Hpos).
      exists (Item cur entry sub :: items). split_and!.
      * cbn. unfold render_item. cbn. by rewrite !str_app_assoc.
      * cbn. by rewrite Hnames.
      * constructor; [|done]. split; [done|]. cbn. rewrite Hk. eauto.
      * constructor; [done|].
        eapply Forall_impl; [exact Hpos|]. intros it. apply placed_skip.
    + destruct (IH (S i) (output +:+ prefix +:+ cur +:+ entry +:+ Py.nl))
        as (items & -> & Hnames & Hok & Hpos).
      exists (Item cur entry "" :: items). split_and!.
      * cbn. unfold render_item. cbn. by rewrite str_app_nil_r, !str_app_assoc.
      * cbn. by rewrite Hnames.
      * constructor; [|done]. split; [done|]. cbn. by rewrite Hk.
      * constructor; [done|].
        eapply Forall_impl; [exact Hpos|]. intros it. apply placed_skip.
    + destruct (IH (S i) (output +:+ prefix +:+ cur +:+ entry +:+ Py.nl))
        as (items & -> & Hnames & Hok & Hpos).
      exists (Item cur entry "" :: items). split_and!.
      * cbn. unfold render_item. cbn. by rewrite str_app_nil_r, !str_app_assoc.
      * cbn. by rewrite Hnames.
      * constructor; [|done]. split; [done|]. cbn. by rewrite Hk.
      * constructor; [done|].
        eapply Forall_impl; [exact Hpos|]. intros it. apply placed_skip.
Qed.

Lemma readable_kids g l :
  readable (Dir g l) →
  Forall (λ e, ∀ prefix, ∃ s, get_directory_tree e.2 prefix = Ok s) 
    (List.filter (λ e, shown e.1 && FS.is_dir e.2) l) →
  ∀ entry render p,
    entry ∈ merge_sort String.le (l.*1) → shown entry = true →
    FS.assoc entry (kids_of l) = Some (Some render) → ∃ s, render p = Ok s.
Proof.
  intros _ Hall entry render p _ Hshown Hk.
  rewrite assoc_kids_of in Hk.
  destruct (FS.assoc entry l) as [c|] eqn:Hc; [|done]. cbn in Hk.
  destruct (FS.is_dir c) eqn:Hd; [|done]. injection Hk as <-.
  rewrite Forall_forall in Hall. apply (Hall (entry, c)).
  apply list_elem_of_In, filter_In. split.
  - by apply list_elem_of_In, assoc_elem.
  - cbn. by rewrite Hshown, Hd.
Qed.

(** A readable directory is rendered: [get_directory_tree] returns. *)
Lemma readable_renders n :
  readable n → ∀ prefix, ∃ s, get_directory_tree n prefix = Ok s.
Proof.
  induction n as [d|g l IH|cause] using node_ind'; intros Hr prefix;
    [inversion Hr| |inversion Hr].
  rewrite get_directory_tree_Dir.
  destruct (tree_loop_items (kids_of l) prefix
              (length (merge_sort String.le (l.*1)))
              (merge_sort String.le (l.*1))) with (i := 0%nat) (output := "")
    as (items & -> & _); [|eauto].
  apply (readable_kids g l Hr).
  inversion Hr as [? ? Hall]; subst.
  rewrite Forall_forall in IH, Hall. apply Forall_forall. intros e He.
  apply list_elem_of_In, filter_In in He as [He Hsd].
  apply list_elem_of_In in He. apply andb_true_iff in Hsd as [Hs Hd].
  apply (IH e He). by apply (Hall e He).
Qed.

Lemma item_ok_entry_ok l prefix it :
  item_ok (kids_of l) prefix it → entry_ok l prefix it.
Proof.
  intros [Hg Hb]. split; [done|]. rewrite assoc_kids_of in Hb.
  destruct (FS.assoc (name it) l) as [c|]; [|done]. cbn in Hb.
  by destruct (FS.is_dir c).
Qed.

(** *** The names listed *)

Lemma visible_elem l entry :
  entry ∈ visible l ↔ entry ∈ l.*1 ∧ Py.startswith entry ".git" = false.
Proof.
  unfold visible. rewrite list_elem_of_In, filter_In, <- list_elem_of_In.
  rewrite merge_sort_Permutation. unfold shown.
  destruct (Py.startswith entry ".git"); cbn; split; intros [? ?]; by split.
Qed.

Lemma StronglySorted_list_filter {A} (R : relation A) (f : A → bool) l :
  StronglySorted R l → StronglySorted R (List.filter f l).
Proof.
  induction 1 as [|x l Hl IH Hx]; cbn; [constructor|].
  destruct (f x); [|done]. constructor; [done|].
  apply Forall_forall. intros y Hy.
  apply list_elem_of_In, filter_In in Hy as [Hy _].
  rewrite Forall_forall in Hx. by apply Hx, list_elem_of_In.
Qed.

Lemma StronglySorted_strict l :
  NoDup l → StronglySorted String.le l → StronglySorted str_lt l.
Proof.
  intros Hnd Hs. induction Hs as [|x l Hl IH Hx]; [constructor|].
  apply NoDup_cons in Hnd as [Hx' Hnd]. constructor; [by apply IH|].
  rewrite Forall_forall in Hx. apply Forall_forall. intros y Hy.
  split; [by apply Hx|]. by intros ->.
Qed.

Lemma visible_sorted l : NoDup (l.*1) → StronglySorted str_lt (visible l).
Proof.
  intros Hnd. apply StronglySorted_list_filter, StronglySorted_strict.
  - by rewrite merge_sort_Permutation.
  - apply StronglySorted_merge_sort; apply _.
Qed.

(** *** Independence from the order of [os.listdir] *)

Lemma sort_perm (l1 l2 : list string) :
  l1 ≡ₚ l2 → merge_sort String.le l1 = merge_sort String.le l2.
Proof.
  intros Hp. apply (Sorted_unique String.le).
  - apply Sorted_merge_sort; apply _.
  - apply Sorted_merge_sort; apply _.
  - by rewrite !merge_sort_Permutation.
Qed.

Lemma Forall2_same_names (R : node → node → Prop) (l1 l2 : list (string * node)) :
  Forall2 (λ a b, a.1 = b.1 ∧ R a.2 b.2) l1 l2 → l1.*1 = l2.*1.
Proof. induction 1 as [|a b l1 l2 [Hab _] _ IH]; cbn; [done|]. by rewrite Hab, IH. Qed.

Lemma tree_loop_ext (kids1 kids2 : list (string * subtree)) prefix len entries :
  (∀ entry, entry ∈ entries →
     kid_agree (FS.assoc entry kids1) (FS.assoc entry kids2)) →
  ∀ i output,
    tree_loop kids1 prefix len i entries output
    = tree_loop kids2 prefix len i entries output.
Proof.
  induction entries as [|entry rest IH]; intros Hk i output; [done|].
  assert (∀ entry, entry ∈ rest →
            kid_agree (FS.assoc entry kids1) (FS.assoc entry kids2)) as Hrest
    by (intros ??; apply Hk; by right).
  specialize (IH Hrest). cbn [tree_loop].
  destruct (Py.startswith entry ".git"); [apply IH|].
  pose proof (Hk entry ltac:(left)) as Ha. unfold kid_agree in Ha.
  destruct (FS.assoc entry kids1) as [[f|]|], (FS.assoc entry kids2) as [[h|]|];
    try done.
  rewrite Ha. by destruct (h _).
Qed.

Lemma same_tree_is_dir n1 n2 : same_tree n1 n2 → FS.is_dir n1 = FS.is_dir n2.
Proof. by destruct 1. Qed.

(** Two listings of the same directory are rendered alike. *)
Lemma same_tree_render n1 :
  wf n1 → ∀ n2, same_tree n1 n2 →
  ∀ prefix, get_directory_tree n1 prefix = get_directory_tree n2 prefix.
Proof.
  induction n1 as [d|g l IH|cause] using node_ind'; intros Hwf n2 Hsame prefix;
    [by inversion Hsame..| |by inversion Hsame].
  inversion Hsame as [| |? ? l1 l2 Hperm Hall]; subst.
  inversion Hwf as [| |? ? Hnd Hkids]; subst.
  assert (l.*1 ≡ₚ l2.*1) as Hnames.
  { rewrite <- (Forall2_same_names _ _ _ Hall). by apply fmap_Permutation. }
  assert (NoDup (l2.*1)) as Hnd2 by by rewrite <- Hnames.
  rewrite !get_directory_tree_Dir, <- (sort_perm _ _ Hnames).
  apply tree_loop_ext. intros entry _. rewrite !assoc_kids_of.
  destruct (FS.assoc entry l) as [c|] eqn:Hc.
  - apply assoc_elem in Hc as Hin.
    assert ((entry, c) ∈ l1) as Hin1 by by rewrite <- Hperm.
    apply list_elem_of_lookup in Hin1 as [i Hi].
    destruct (Forall2_lookup_l _ _ _ _ _ Hall Hi) as ([k c2] & Hi2 & Hk & Hc2).
    cbn in Hk, Hc2. subst k.
    rewrite (elem_assoc entry c2 l2 Hnd2) by by eapply list_elem_of_lookup_2.
    cbn. rewrite <- (same_tree_is_dir _ _ Hc2).
    destruct (FS.is_dir c); [|done]. cbn. intros p.
    rewrite Forall_forall in IH, Hkids.
    exact (IH _ Hin (Hkids _ Hin) c2 Hc2 p).
  - apply assoc_None in Hc.
    assert (FS.assoc entry l2 = None) as ->; [|done].
    apply assoc_None. by rewrite <- Hnames.
Qed.

(** *** The rendering of one directory *)

Lemma glyph_at_terminal len pos :
  glyph_at len pos = "└── " ↔ Z.of_nat pos = Z.of_nat len - 1.
Proof.
  unfold glyph_at. destruct (Z.eqb_spec (Z.of_nat pos) (Z.of_nat len - 1)); by split.
Qed.

(** In a listing without duplicates, the terminal glyph marks the entry
    that is last in the listing, and only that one. *)
Lemma placed_terminal (all : list string) it :
  NoDup all → placed (length all) 0 all it →
  (glyph it = "└── " ↔ last all = Some (name it)).
Proof.
  intros Hnd (j & Hj & ->). cbn. rewrite glyph_at_terminal, last_lookup.
  pose proof (lookup_lt_Some _ _ _ Hj) as Hlt. split.
  - intros Hpos. rewrite <- Hj. f_equal. lia.
  - intros Hlast. rewrite (NoDup_lookup _ _ _ _ Hnd Hj Hlast). lia.
Qed.

(** The rendering of a readable directory whose names are unique. *)
Lemma tree_listing g l prefix :
  readable (Dir g l) → wf (Dir g l) →
  ∃ items,
    get_directory_tree (Dir g l) prefix
    = Ok (Py.join_lines (map (render_item prefix) items))
    ∧ map name items = visible l
    ∧ Forall (entry_ok l prefix) items
    ∧ Forall (λ it, glyph it = "└── "
                    ↔ last (merge_sort String.le (l.*1)) = Some (name it)) items.
Proof.
  intros Hr Hwf.
  destruct (tree_loop_items (kids_of l) prefix
              (length (merge_sort String.le (l.*1)))
              (merge_sort String.le (l.*1))) with (i := 0%nat) (output := "")
    as (items & Hrun & Hnames & Hok & Hpos).
  { apply (readable_kids g l Hr).
    inversion Hr as [? ? Hall]; subst.
    rewrite Forall_forall in Hall. apply Forall_forall. intros e He.
    apply list_elem_of_In, filter_In in He as [He Hsd].
    apply list_elem_of_In in He. apply andb_true_iff in Hsd as [Hs Hd].
    by apply readable_renders, (Hall e He). }
  exists items. split_and!.
  - by rewrite get_directory_tree_Dir, Hrun.
  - done.
  - eapply Forall_impl; [exact Hok|]. apply item_ok_entry_ok.
  - eapply Forall_impl; [exact Hpos|]. intros it. apply placed_terminal.
    inversion Hwf; subst. by rewrite merge_sort_Permutation.
Qed.

(** C6.  A readable directory whose names are unique is rendered as one
    item per entry: the items are the entries whose name does not begin
    with [.git], in strictly increasing lexicographic order; every item is
    the prefix, a branch glyph, the name and a line feed, followed by the
    rendering of the subdirectory it names, if it names one; and the text
    does not depend on the order in which [os.listdir] yields the entries,
    at any depth. *)
Theorem C6_tree_listing g l prefix :
  readable (Dir g l) → wf (Dir g l) →
  ∃ items,
    get_directory_tree (Dir g l) prefix
    = Ok (Py.join_lines (map (render_item prefix) items))
    ∧ map name items = visible l
    ∧ StronglySorted str_lt (visible l)
    ∧ (∀ entry, entry ∈ visible l
                ↔ entry ∈ l.*1 ∧ Py.startswith entry ".git" = false)
    ∧ Forall (entry_ok l prefix) items
    ∧ ∀ n2, same_tree (Dir g l) n2 →
        get_directory_tree n2 prefix = get_directory_tree (Dir g l) prefix.
Proof.
  intros Hr Hwf.
  destruct (tree_listing g l prefix Hr Hwf) as (items & Hrun & Hnames & Hok & _).
  exists items. split_and!; [done|done| | |done|].
  - inversion Hwf; subst. by apply visible_sorted.
  - apply visible_elem.
  - intros n2 Hsame. symmetry. by apply same_tree_render.
Qed.

Lemma C6_tree_listing_witness :
  readable repo_tree ∧ wf repo_tree
  ∧ get_directory_tree repo_tree ""
    = Ok (Py.join_lines
            ["├── README.md" +:+ Py.nl;
             "└── src" +:+ Py.nl;
             "    ├── a.py" +:+ Py.nl;
             "    └── b.py" +:+ Py.nl])
  ∧ ∃ items, map name items = ["README.md"; "src"].
Proof.
  assert (readable repo_tree) as Hr.
  { repeat (constructor; cbn; try (intros; discriminate)). }
  assert (wf repo_tree) as Hwf.
  { constructor; [by apply (bool_decide_unpack _)|].
    repeat (constructor; cbn); by apply (bool_decide_unpack _). }
  split; [exact Hr|]. split; [exact Hwf|]. split; [reflexivity|].
  destruct (C6_tree_listing None _ "" Hr Hwf) as (items & _ & Hnames & _).
  exists items. exact Hnames.
Defined.

(** C7, at the failing input.  The directory holds [.env] and [.gitignore].
    [.gitignore] is last in sorted order and is skipped, so [.env] is the
    last (and only) entry emitted; it is emitted with the mid-branch glyph,
    because [is_last] compares the index with the length of the unfiltered
    listing. *)
Theorem C7_last_emitted_entry_gets_mid_branch :
  visible [(".gitignore", File (Text "")); (".env", File (Text ""))] = [".env"]
  ∧ get_directory_tree dotfiles_tree "" = Ok ("├── .env" +:+ Py.nl).
Proof. split; reflexivity. Qed.

(** Where the claim of C7 holds: when the last name in sorted order is not
    skipped, it is the last item, it carries the terminal glyph, and every
    item before it carries the mid-branch glyph. *)
Lemma shown_last_entry_terminal_glyph g l prefix e :
  readable (Dir g l) → wf (Dir g l) →
  last (merge_sort String.le (l.*1)) = Some e →
  Py.startswith e ".git" = false →
  ∃ init it,
    get_directory_tree (Dir g l) prefix
    = Ok (Py.join_lines (map (render_item prefix) (init ++ [it])))
    ∧ name it = e ∧ glyph it = "└── "
    ∧ Forall (λ it', glyph it' = "├── ") init.
Proof.
  intros Hr Hwf Hlast He.
  destruct (tree_listing g l prefix Hr Hwf) as (items & Hrun & Hnames & Hok & Hpos).
  apply last_Some in Hlast as (sorted' & Hsorted).
  assert (NoDup (sorted' ++ [e])) as Hnd.
  { rewrite <- Hsorted, merge_sort_Permutation. by inversion Hwf. }
  unfold visible in Hnames. rewrite Hsorted, List.filter_app in Hnames.
  cbn in Hnames. unfold shown at 2 in Hnames. rewrite He in Hnames.
  cbn in Hnames.
  apply map_eq_app in Hnames as (init & tl & -> & Hinit & Htl).
  destruct tl as [|it [|? ?]]; [done| |done]. injection Htl as Hit.
  apply Forall_app in Hpos as [Hpos_init Hpos_it].
  apply Forall_app in Hok as [Hok_init _].
  rewrite Forall_singleton in Hpos_it.
  exists init, it. split_and!; [done|done| |].
  - apply Hpos_it. rewrite Hsorted, last_snoc. by rewrite Hit.
  - rewrite Forall_forall in Hpos_init, Hok_init. apply Forall_forall.
    intros it' Hin.
    destruct (Hok_init it' Hin) as [Hg _].
    apply elem_of_cons in Hg as [Hg|Hg];
      [|by apply list_elem_of_singleton in Hg].
    apply (Hpos_init it' Hin) in Hg.
    rewrite Hsorted, last_snoc in Hg. injection Hg as Hg.
    apply NoDup_app in Hnd as (_ & Hdisj & _). destruct (Hdisj e).
    + assert (name it' ∈ List.filter shown sorted') as Hn.
      { rewrite <- Hinit. apply list_elem_of_In, in_map, list_elem_of_In, Hin. }
      apply list_elem_of_In, filter_In in Hn as [Hn _].
      rewrite Hg. by apply list_elem_of_In.
    + left.
Qed.

(** Where it fails: when the last name in sorted order is skipped, every
    item carries the mid-branch glyph, the last one included. *)
Lemma skipped_last_entry_no_terminal_glyph g l prefix e :
  readable (Dir g l) → wf (Dir g l) →
  last (merge_sort String.le (l.*1)) = Some e →
  Py.startswith e ".git" = true →
  ∃ items,
    get_directory_tree (Dir g l) prefix
    = Ok (Py.join_lines (map (render_item prefix) items))
    ∧ map name items = visible l
    ∧ Forall (λ it, glyph it = "├── ") items.
Proof.
  intros Hr Hwf Hlast He.
  destruct (tree_listing g l prefix Hr Hwf) as (items & Hrun & Hnames & Hok & Hpos).
  exists items. split_and!; [done..|].
  rewrite Forall_forall in Hpos, Hok. apply Forall_forall. intros it Hin.
  destruct (Hok it Hin) as [Hg _].
  apply elem_of_cons in Hg as [Hg|Hg]; [|by apply list_elem_of_singleton in Hg].
  apply (Hpos it Hin) in Hg. rewrite Hlast in Hg. injection Hg as ->.
  assert (name it ∈ visible l) as Hn.
  { rewrite <- Hnames. apply list_elem_of_In, in_map, list_elem_of_In, Hin. }
  apply visible_elem in Hn as [_ Hn]. congruence.
Qed.

(** * Further properties *)

(** ** [modify_file_content]: edges of the line range *)

Ltac splice_bounds :=
  unfold splice, Py.slice_assign, Py.slice_bound;
  repeat match goal with
         | |- context [Z.ltb ?a ?b] => destruct (Z.ltb_spec a b)
         end;
  try lia;
  repeat (f_equal; try lia).

(** X1.  A line-range edit needs an existing, readable regular file: on a
    missing path, a directory or an undecodable file it raises, writes
    nothing and creates nothing. *)
Theorem X1_range_edit_without_readable_file path content
    (start_line end_line : Z) fs :
  (∀ raw, OS.lookup path fs ≠ Some (File (Text raw))) →
  ∃ msg,
    modify_file_content path content (Some start_line) (Some end_line) fs
    = (Raise msg, fs, []).
Proof.
  intros Hno. unfold modify_file_content, bind, OS.read_text.
  destruct (OS.lookup path fs) as [[[raw|cause]|g l|cause]|] eqn:Hl; eauto.
  by destruct (Hno raw).
Qed.

Lemma X1_range_edit_without_readable_file_witness :
  (∀ raw, OS.lookup "missing.txt" (notes_fs five_lines) ≠ Some (File (Text raw)))
  ∧ ∃ msg,
      modify_file_content "missing.txt" "x" (Some 1) (Some 1) (notes_fs five_lines)
      = (Raise msg, notes_fs five_lines, []).
Proof.
  assert (∀ raw, OS.lookup "missing.txt" (notes_fs five_lines)
                 ≠ Some (File (Text raw))) as H by (intros raw; discriminate).
  split; [exact H|].
  exact (X1_range_edit_without_readable_file "missing.txt" "x" 1 1
           (notes_fs five_lines) H).
Defined.

(** X2.  A line-range write with empty content deletes the lines of the
    range: with [1 <= start <= end <= n] the file is rewritten as the lines
    before [start] followed by the lines after [end], [end - start + 1]
    lines fewer. *)
Theorem X2_empty_content_deletes_range path raw (start_line end_line : Z) fs :
  OS.lookup path fs = Some (File (Text raw)) →
  1 ≤ start_line ≤ end_line →
  end_line ≤ Z.of_nat (length (Py.readlines (Py.universal_newlines raw))) →
  let lines := Py.readlines (Py.universal_newlines raw) in
  let result :=
    take (Z.to_nat (start_line - 1)) lines ++ drop (Z.to_nat end_line) lines in
  ∃ fs',
    modify_file_content path "" (Some start_line) (Some end_line) fs
    = (Ok (), fs', [WriteText path (Py.join_lines result)])
    ∧ OS.lookup path fs' = Some (File (Text (Py.join_lines result)))
    ∧ Z.of_nat (length result)
      = Z.of_nat (length lines) - (end_line - start_line + 1).
Proof.
  intros Hl Hs He lines result.
  destruct (modify_range_run path raw "" start_line end_line fs Hl)
    as (fs' & Hrun & Hfs').
  fold lines in Hrun, Hfs'.
  rewrite (splice_inside lines "" start_line end_line Hs He) in Hrun, Hfs'.
  exists fs'. split_and!; [done..|].
  unfold result. rewrite length_app, length_take, length_drop.
  unfold lines in *. lia.
Qed.

Lemma X2_empty_content_deletes_range_witness :
  OS.lookup "notes.txt" (notes_fs five_lines) = Some (File (Text five_lines))
  ∧ 1 ≤ 2 ≤ 3
  ∧ 3 ≤ Z.of_nat (length (Py.readlines (Py.universal_newlines five_lines)))
  ∧ ∃ fs',
      modify_file_content "notes.txt" "" (Some 2) (Some 3) (notes_fs five_lines)
      = (Ok (), fs',
         [WriteText "notes.txt"
            (Py.join_lines ["one" +:+ Py.nl; "four" +:+ Py.nl; "five" +:+ Py.nl])]).
Proof.
  assert (3 ≤ Z.of_nat (length (Py.readlines (Py.universal_newlines five_lines))))
    as H3 by (vm_compute; discriminate).
  assert (1 ≤ 2 ≤ 3) as H12 by lia.
  split; [reflexivity|]. split; [exact H12|]. split; [exact H3|].
  destruct (X2_empty_content_deletes_range "notes.txt" five_lines 2 3
              (notes_fs five_lines) eq_refl H12 H3) as (fs' & Hrun & _).
  exists fs'. exact Hrun.
Defined.

(** X3.  A range whose end lies before its start removes nothing: with
    [1 <= start] and [0 <= end < start] the new lines are inserted in front
    of line [start] (or at the end of the file, when [start] is beyond it)
    and every line read is kept. *)
Theorem X3_inverted_range_inserts lines content (start_line end_line : Z) :
  1 ≤ start_line → 0 ≤ end_line < start_line →
  let new_lines := map (λ line, line +:+ Py.nl) (Py.splitlines content) in
  let at_ := Z.to_nat (Z.min (start_line - 1) (Z.of_nat (length lines))) in
  splice lines content start_line end_line
  = take at_ lines ++ new_lines ++ drop at_ lines
  ∧ length (splice lines content start_line end_line)
    = (length lines + length new_lines)%nat.
Proof.
  intros Hs He new_lines at_.
  assert (splice lines content start_line end_line
          = take at_ lines ++ new_lines ++ drop at_ lines) as ->.
  { unfold at_. splice_bounds. }
  split; [done|].
  rewrite !length_app, length_take, length_drop. unfold at_. lia.
Qed.

Lemma X3_inverted_range_inserts_witness :
  1 ≤ 3 ∧ 0 ≤ 1 < 3
  ∧ splice (Py.readlines five_lines) "new" 3 1
    = ["one" +:+ Py.nl; "two" +:+ Py.nl; "new" +:+ Py.nl;
       "three" +:+ Py.nl; "four" +:+ Py.nl; "five" +:+ Py.nl].
Proof.
  assert (1 ≤ 3) as H1 by lia. assert (0 ≤ 1 < 3) as H2 by lia.
  split; [exact H1|]. split; [exact H2|].
  exact (proj1 (X3_inverted_range_inserts (Py.readlines five_lines) "new" 3 1
                  H1 H2)).
Defined.

(** X4.  Line numbers outside the file: a [start_line] below 1 acts as 1 and
    an [end_line] beyond the last line acts as the last line; a negative
    [end_line] is not clamped but counts back from the end of the file, as
    a Python slice bound does ([-1] stops before the last line), and one
    below [-n] acts as 0. *)
Theorem X4_out_of_range_line_numbers lines content (start_line end_line : Z) :
  let n := Z.of_nat (length lines) in
  splice lines content start_line end_line
  = splice lines content (Z.max 1 start_line) (Z.min end_line n)
  ∧ (- n ≤ end_line < 0 →
     splice lines content start_line end_line
     = splice lines content start_line (n + end_line))
  ∧ (end_line ≤ - n →
     splice lines content start_line end_line
     = splice lines content start_line 0).
Proof.
  intros n. unfold n. split_and!; [|intros H..]; splice_bounds.
Qed.

(** ** [modify_file_content]: the full-file write *)

Lemma put_Some_find cs v n n' : FS.put cs v n = Some n' → FS.find cs n' = Some v.
Proof.
  revert n n'. induction cs as [|c cs IH]; intros n n' H.
  - by injection H as <-.
  - destruct n as [d|g l|cause]; [done| |done].
    destruct cs as [|c' cs].
    + injection H as <-. by rewrite find_step, assoc_set_entry_eq.
    + rewrite put_step in H.
      destruct (FS.assoc c l) as [child|]; [|done].
      destruct (FS.put (c' :: cs) v child) as [child'|] eqn:Hp; [|done].
      injection H as <-. rewrite find_step, assoc_set_entry_eq. by apply IH in Hp.
Qed.




(** ** [clone_repo]: what a resolved workspace is *)

Lemma reuse_cached_Some url t fs p fs' ev :
  reuse_cached url t fs = (Ok (Some p), fs', ev) →
  p = t ∧ fs' = fs ∧ ev = []
  ∧ ∃ l, OS.lookup t fs = Some (Dir (Some (GitMeta false (Some url))) l).
Proof.
  destruct (rmtree_run t fs) as (fs2 & Hrm).
  unfold reuse_cached, bind, try_except, OS.path_exists, OS.git_Repo,
    OS.remote_url, ret, raise.
  destruct (OS.lookup t fs) as [[d|[[b o]|] l|cause]|] eqn:Hl;
    cbn -[OS.rmtree]; rewrite ?Hl, ?Hrm; cbn -[OS.rmtree];
    try destruct b; try destruct o as [o|];
    cbn -[OS.rmtree]; rewrite ?Hl, ?Hrm; cbn -[OS.rmtree];
    try destruct (String.eqb_spec o url); cbn -[OS.rmtree];
    intros [= <- <- <-]; subst; eauto.
Qed.

Lemma clone_from_ok host url path fs fs' ev :
  OS.clone_from host url path fs = (Ok (), fs', ev) →
  ∃ files,
    remote host url = Cloned files
    ∧ ev = [CloneFrom url path None]
    ∧ OS.lookup path fs' = Some (Dir (Some (GitMeta false (Some url))) files).
Proof.
  unfold OS.clone_from.
  assert (∀ files,
    match FS.put (FS.components path)
            (Dir (Some (GitMeta false (Some url))) files) fs with
    | Some fs2 => (Ok (), fs2, [CloneFrom url path None])
    | None =>
        (Raise "could not create leading directories", fs,
         [CloneFrom url path (Some "could not create leading directories")])
    end = (Ok (), fs', ev) →
    ev = [CloneFrom url path None]
    ∧ OS.lookup path fs' = Some (Dir (Some (GitMeta false (Some url))) files))
    as Hput.
  { intros files.
    destruct (FS.put _ _ fs) as [fs2|] eqn:Hp; [|done].
    intros [= <- <-]. split; [done|]. by apply put_Some_find in Hp. }
  destruct (OS.lookup path fs) as [[d|g [|e l]|cause]|]; try done;
    (destruct (remote host url) as [files|cause partial]; [|done]);
    intros H; exists files; (split; [done|]); by apply Hput.
Qed.

Lemma acquire_ok host url t fs p fs' ev :
  acquire host url t fs = (Ok p, fs', ev) →
  p = t
  ∧ ∃ l, OS.lookup t fs' = Some (Dir (Some (GitMeta false (Some url))) l).
Proof.
  intros H. unfold acquire in H.
  apply bind_inv in H as [(? & _ & ?)|(? & fs1 & e1 & e2 & _ & H & _)]; [done|].
  apply try_except_inv in H as [(a & H & [= <-])|(msg & fs2 & e3 & e4 & _ & H & _)].
  - apply bind_inv in H as [(? & _ & ?)|([] & fs2 & e3 & e4 & Hc & Hr & _)];
      [done|].
    injection Hr as <- <- <-.
    apply clone_from_ok in Hc as (files & _ & _ & Hl). eauto.
  - apply bind_inv in H as [(? & _ & ?)|(? & ? & ? & ? & _ & H & _)]; done.
Qed.

Lemma clone_repo_ok host url fs p fs' ev :
  Py.startswith url "https://github.com/" = true ∨ OS.lookup url fs = None →
  clone_repo host url fs = (Ok p, fs', ev) →
  p = cache_dir host url
  ∧ ∃ l, OS.lookup p fs' = Some (Dir (Some (GitMeta false (Some url))) l).
Proof.
  intros Hr H. rewrite clone_repo_remote in H by done.
  apply bind_inv in H as [(? & _ & ?)|(cached & fs1 & e1 & e2 & Hc & H & _)];
    [done|].
  destruct cached as [q|].
  - apply reuse_cached_Some in Hc as (-> & -> & _ & l & Hl).
    injection H as <- <- _. eauto.
  - apply acquire_ok in H as [-> ?]. eauto.
Qed.

(** X6.  Whenever [clone_repo] returns for a GitHub locator, what it
    returns is the cache directory of the locator, that directory is a
    non-bare working copy whose origin is the locator, and resolving the
    same locator again returns the same path without any effect: no
    removal, no directory creation, no clone. *)
Theorem X6_resolved_workspace_is_valid_and_reused host url fs p fs' ev :
  Py.startswith url "https://github.com/" = true →
  clone_repo host url fs = (Ok p, fs', ev) →
  p = cache_dir host url
  ∧ (∃ l, OS.lookup p fs' = Some (Dir (Some (GitMeta false (Some url))) l))
  ∧ clone_repo host url fs' = (Ok p, fs', []).
Proof.
  intros Hg H.
  destruct (clone_repo_ok host url fs p fs' ev (or_introl Hg) H) as (-> & l & Hl).
  split_and!; [done|by eauto|].
  by apply (clone_repo_reuses_valid_cache host url fs' l); [left|].
Qed.

Lemma X6_resolved_workspace_is_valid_and_reused_witness :
  Py.startswith demo_url "https://github.com/" = true
  ∧ clone_repo demo_host demo_url empty_tmp
    = (Ok "/tmp/github_tools_3e1f0c2a9b7d",
       (clone_repo demo_host demo_url empty_tmp).1.2,
       (clone_repo demo_host demo_url empty_tmp).2)
  ∧ clone_repo demo_host demo_url (clone_repo demo_host demo_url empty_tmp).1.2
    = (Ok "/tmp/github_tools_3e1f0c2a9b7d",
       (clone_repo demo_host demo_url empty_tmp).1.2, []).
Proof.
  assert (clone_repo demo_host demo_url empty_tmp
          = (Ok "/tmp/github_tools_3e1f0c2a9b7d",
             (clone_repo demo_host demo_url empty_tmp).1.2,
             (clone_repo demo_host demo_url empty_tmp).2)) as Hrun
    by reflexivity.
  split; [reflexivity|]. split; [exact Hrun|].
  exact (proj2 (proj2 (X6_resolved_workspace_is_valid_and_reused
                         demo_host demo_url empty_tmp _ _ _ eq_refl Hrun))).
Defined.

(** ** [clone_repo]: what happens to an existing cache directory *)

Lemma set_entry_same {A} k (v : A) l :
  FS.assoc k l = Some v → FS.set_entry k v l = l.
Proof.
  induction l as [|[k' v'] l IH]; [done|]. cbn.
  destruct (String.eqb_spec k k') as [->|_].
  - by intros [= ->].
  - intros H. by rewrite IH.
Qed.

Lemma mkdirs_existing cs n m :
  FS.find cs n = Some m → FS.is_dir m = true → FS.mkdirs cs n = Ok n.
Proof.
  revert n. induction cs as [|c cs IH]; intros n Hf Hd.
  - injection Hf as ->. by destruct m.
  - destruct n as [d|g l|cause]; [done| |done]. rewrite find_step in Hf.
    destruct (FS.assoc c l) as [child|] eqn:Hc; [|done].
    cbn [FS.mkdirs]. rewrite Hc. cbn. rewrite (IH child Hf Hd).
    by rewrite set_entry_same.
Qed.

Lemma mkdirs_on_file cs n d :
  FS.find cs n = Some (File d) → FS.mkdirs cs n = Raise "[Errno 17] File exists".
Proof.
  revert n. induction cs as [|c cs IH]; intros n Hf.
  - by injection Hf as ->.
  - destruct n as [?|g l|cause]; [done| |done]. rewrite find_step in Hf.
    destruct (FS.assoc c l) as [child|] eqn:Hc; [|done].
    cbn [FS.mkdirs]. rewrite Hc. cbn. by rewrite (IH child Hf).
Qed.

Lemma mkdirs_after_del cs n g l :
  FS.find cs n = Some (Dir g l) → cs ≠ [] →
  ∃ n2, FS.mkdirs cs (FS.del cs n) = Ok n2
        ∧ FS.find cs n2 = Some (Dir None []).
Proof.
  revert n. induction cs as [|c cs IH]; intros n Hf Hne; [done|].
  destruct n as [d|g0 l0|cause]; [done| |done]. rewrite find_step in Hf.
  destruct (FS.assoc c l0) as [child|] eqn:Hc; [|done].
  destruct cs as [|c' cs].
  - eexists. split.
    + cbn. rewrite assoc_del_entry_eq. cbn. done.
    + by rewrite find_step, assoc_set_entry_eq.
  - destruct (IH child Hf) as (child2 & Hm & Hf2); [done|].
    rewrite del_step, Hc. eexists. split.
    + rewrite mkdirs_step, assoc_set_entry_eq. cbn [default from_option id].
      rewrite Hm. done.
    + by rewrite find_step, assoc_set_entry_eq.
Qed.

Lemma cache_dir_nonempty host url : String.eqb (cache_dir host url) "" = false.
Proof.
  apply String.eqb_neq. intros H.
  apply (cache_dir_not_root host url). by rewrite H.
Qed.

(** X7.  A cache directory that does not open as a repository, or has no
    remote named origin, is removed before the acquisition, with deletion
    errors ignored.  When the removal leaves nothing at the cache path, the
    acquisition starts from an empty directory: if the remote can be
    cloned, the call returns the cache directory, which then holds exactly
    the cloned files with the locator as origin.  When the removal leaves
    a directory that still holds something, git refuses to clone into it,
    the call fails, and what was left stays where it was. *)
Theorem X7_unopenable_cache_is_replaced host url fs g l :
  Py.startswith url "https://github.com/" = true ∨ OS.lookup url fs = None →
  OS.lookup (cache_dir host url) fs = Some (Dir g l) →
  g = None ∨ g = Some (GitMeta false None) →
  (OS.lookup (cache_dir host url) (OS.rmtree (cache_dir host url) fs).1.2 = None →
   ∀ files,
     remote host url = Cloned files →
     ∃ fs',
       clone_repo host url fs
       = (Ok (cache_dir host url), fs',
          [Rmtree (cache_dir host url); Makedirs (cache_dir host url);
           CloneFrom url (cache_dir host url) None])
       ∧ OS.lookup (cache_dir host url) fs'
         = Some (Dir (Some (GitMeta false (Some url))) files))
  ∧ (∀ g' e l',
       OS.lookup (cache_dir host url) (OS.rmtree (cache_dir host url) fs).1.2
       = Some (Dir g' (e :: l')) →
       ∃ fs',
         clone_repo host url fs
         = (Raise ("Failed to clone repository: "
                   +:+ "destination path already exists and is not an empty directory"),
            fs',
            [Rmtree (cache_dir host url); Makedirs (cache_dir host url);
             CloneFrom url (cache_dir host url)
               (Some "destination path already exists and is not an empty directory");
             Rmtree (cache_dir host url)])
         ∧ OS.lookup (cache_dir host url) fs' = Some (Dir g' (e :: l'))).
Proof.
  set (t := cache_dir host url). intros Hr Hl Hg.
  pose proof (cache_dir_not_root host url) as Hne. fold t in Hne.
  rewrite (clone_repo_removes_unopenable_cache host url fs g l Hr Hl Hg).
  fold t. split.
  - intros Hgone files Hremote.
    assert ((OS.rmtree t fs).1.2 = FS.del (FS.components t) fs) as ->.
    { rewrite (rmtree_lookup _ _ Hne), Hl in Hgone.
      unfold OS.rmtree. by rewrite Hl, Hgone. }
    destruct (mkdirs_after_del _ _ _ _ Hl Hne) as (fs2 & Hm & Hf2).
    assert (OS.makedirs t (FS.del (FS.components t) fs)
            = (Ok (), fs2, [Makedirs t])) as Hmk.
    { unfold OS.makedirs. unfold t at 1. rewrite cache_dir_nonempty.
      fold t. by rewrite Hm. }
    rewrite (acquire_after_makedirs _ _ _ _ _ Hmk).
    destruct (put_find _ (Dir (Some (GitMeta false (Some url))) files) _ _ Hf2)
      as (fs3 & Hp & Hf3).
    assert (OS.clone_from host url t fs2 = (Ok (), fs3, [CloneFrom url t None]))
      as ->.
    { unfold OS.clone_from, OS.lookup. by rewrite Hf2, Hremote, Hp. }
    by exists fs3.
  - intros g' e l' Hleft.
    assert (FS.leftover (Dir g l) = Some (Dir g' (e :: l'))) as E
      by by rewrite (rmtree_lookup _ _ Hne), Hl in Hleft.
    set (fs1 := (OS.rmtree t fs).1.2) in *.
    assert (OS.makedirs t fs1 = (Ok (), fs1, [Makedirs t])) as Hmk.
    { unfold OS.makedirs. unfold t at 1. rewrite cache_dir_nonempty. fold t.
      by rewrite (mkdirs_existing _ _ _ Hleft eq_refl). }
    rewrite (acquire_after_makedirs _ _ _ _ _ Hmk).
    unfold OS.clone_from. rewrite Hleft. cbv beta iota zeta.
    eexists. split; [done|].
    rewrite (rmtree_lookup _ _ Hne), Hleft. by apply (leftover_idem _ _ E).
Qed.

Lemma X7_unopenable_cache_is_replaced_witness :
  (Py.startswith demo_url "https://github.com/" = true
   ∨ OS.lookup demo_url
       (Dir None [("tmp", Dir None [("github_tools_3e1f0c2a9b7d",
                                     Dir None [("junk", File (Text ""))])])])
     = None)
  ∧ (∃ fs',
       clone_repo demo_host demo_url
         (Dir None [("tmp", Dir None [("github_tools_3e1f0c2a9b7d",
                                       Dir None [("junk", File (Text ""))])])])
       = (Ok (cache_dir demo_host demo_url), fs',
          [Rmtree (cache_dir demo_host demo_url);
           Makedirs (cache_dir demo_host demo_url);
           CloneFrom demo_url (cache_dir demo_host demo_url) None]))
  ∧ ∃ fs',
      (clone_repo demo_host demo_url locked_fs).1.2 = fs'
      ∧ OS.lookup (cache_dir demo_host demo_url) fs'
        = Some (Dir None [("locked", NoAccess "[Errno 13] Permission denied")]).
Proof.
  assert (Py.startswith demo_url "https://github.com/" = true
          ∨ OS.lookup demo_url
              (Dir None [("tmp", Dir None [("github_tools_3e1f0c2a9b7d",
                                            Dir None [("junk", File (Text ""))])])])
            = None) as Hr by (left; reflexivity).
  split; [exact Hr|]. split.
  - destruct (proj1 (X7_unopenable_cache_is_replaced demo_host demo_url _ None
                       [("junk", File (Text ""))] Hr eq_refl (or_introl eq_refl))
                eq_refl _ eq_refl)
      as (fs' & Hrun & _).
    exists fs'. exact Hrun.
  - destruct (proj2 (X7_unopenable_cache_is_replaced demo_host demo_url
                       locked_fs None
                       [("README.md", File (Text "old"));
                        ("locked", NoAccess "[Errno 13] Permission denied")]
                       (or_introl eq_refl) eq_refl (or_introl eq_refl))
                _ _ _ eq_refl)
      as (fs' & Hrun & Hleft).
    exists fs'. split; [by rewrite Hrun|exact Hleft].
Defined.

(** X8.  A populated cache directory that opens as a repository but is bare
    or has another origin is not removed before the acquisition: git
    refuses to clone into it and the call fails with that refusal wrapped
    in ["Failed to clone repository: "].  Only the cleanup of the failure
    removes the directory, with deletion errors ignored: the call leaves
    the filesystem as [shutil.rmtree(ignore_errors=True)] of the cache
    directory leaves it, so the cache path is gone afterwards exactly when
    that removal gets rid of it. *)
Theorem X8_mismatched_cache_is_refused host url fs g e l :
  Py.startswith url "https://github.com/" = true ∨ OS.lookup url fs = None →
  OS.lookup (cache_dir host url) fs = Some (Dir (Some g) (e :: l)) →
  bare g = true ∨ (∃ o, origin g = Some o ∧ o ≠ url) →
  clone_repo host url fs
  = (Raise ("Failed to clone repository: "
            +:+ "destination path already exists and is not an empty directory"),
     (OS.rmtree (cache_dir host url) fs).1.2,
     [Makedirs (cache_dir host url);
      CloneFrom url (cache_dir host url)
        (Some "destination path already exists and is not an empty directory");
      Rmtree (cache_dir host url)]).
Proof.
  set (t := cache_dir host url). intros Hr Hl Hg.
  rewrite (clone_repo_keeps_mismatched_cache host url fs g (e :: l) Hr Hl Hg).
  fold t.
  assert (OS.makedirs t fs = (Ok (), fs, [Makedirs t])) as Hmk.
  { unfold OS.makedirs. unfold t at 1. rewrite cache_dir_nonempty. fold t.
    by rewrite (mkdirs_existing _ _ _ Hl eq_refl). }
  rewrite (acquire_after_makedirs _ _ _ _ _ Hmk).
  unfold OS.clone_from. by rewrite Hl.
Qed.

Lemma X8_mismatched_cache_is_refused_witness :
  (Py.startswith demo_url "https://github.com/" = true
   ∨ OS.lookup demo_url stale_fs = None)
  ∧ clone_repo demo_host demo_url stale_fs
    = (Raise ("Failed to clone repository: "
              +:+ "destination path already exists and is not an empty directory"),
       empty_tmp,
       [Makedirs (cache_dir demo_host demo_url);
        CloneFrom demo_url (cache_dir demo_host demo_url)
          (Some "destination path already exists and is not an empty directory");
        Rmtree (cache_dir demo_host demo_url)]).
Proof.
  assert (Py.startswith demo_url "https://github.com/" = true
          ∨ OS.lookup demo_url stale_fs = None) as Hr by (left; reflexivity).
  split; [exact Hr|].
  refine (X8_mismatched_cache_is_refused demo_host demo_url stale_fs
            (GitMeta false (Some "https://github.com/example/other"))
            _ _ Hr eq_refl _).
  right. exists "https://github.com/example/other". split; [reflexivity|discriminate].
Defined.

(** X9.  A regular file at the cache path blocks the locator for good:
    opening it as a repository fails, the removal fails and is ignored,
    and [os.makedirs] raises outside the [try], so the error is not wrapped
    in ["Failed to clone repository: "]; the filesystem is left as it was,
    and every later call fails the same way. *)
Theorem X9_file_at_cache_path_blocks_resolve host url fs d :
  Py.startswith url "https://github.com/" = true ∨ OS.lookup url fs = None →
  OS.lookup (cache_dir host url) fs = Some (File d) →
  clone_repo host url fs
  = (Raise "[Errno 17] File exists", fs, [Rmtree (cache_dir host url)]).
Proof.
  set (t := cache_dir host url). intros Hr Hl.
  rewrite clone_repo_remote by done. fold t.
  unfold reuse_cached, bind, try_except, OS.path_exists, OS.git_Repo,
    OS.rmtree, ret. cbn. rewrite ?Hl. cbn. rewrite ?Hl. cbn.
  unfold acquire, bind, OS.makedirs. unfold t at 1.
  rewrite cache_dir_nonempty. fold t.
  by rewrite (mkdirs_on_file _ _ _ Hl).
Qed.

Lemma X9_file_at_cache_path_blocks_resolve_witness :
  (Py.startswith demo_url "https://github.com/" = true
   ∨ OS.lookup demo_url
       (Dir None [("tmp", Dir None [("github_tools_3e1f0c2a9b7d",
                                     File (Text "squatter"))])]) = None)
  ∧ clone_repo demo_host demo_url
      (Dir None [("tmp", Dir None [("github_tools_3e1f0c2a9b7d",
                                    File (Text "squatter"))])])
    = (Raise "[Errno 17] File exists",
       Dir None [("tmp", Dir None [("github_tools_3e1f0c2a9b7d",
                                    File (Text "squatter"))])],
       [Rmtree (cache_dir demo_host demo_url)]).
Proof.
  assert (Py.startswith demo_url "https://github.com/" = true
          ∨ OS.lookup demo_url
              (Dir None [("tmp", Dir None [("github_tools_3e1f0c2a9b7d",
                                            File (Text "squatter"))])]) = None)
    as Hr by (left; reflexivity).
  split; [exact Hr|].
  exact (X9_file_at_cache_path_blocks_resolve demo_host demo_url _
           (Text "squatter") Hr eq_refl).
Defined.

(** ** [clone_repo]: where the cache directory is, and what is left alone *)

Lemma assoc_set_entry_ne {A} k k' (v : A) l :
  k ≠ k' → FS.assoc k (FS.set_entry k' v l) = FS.assoc k l.
Proof.
  intros Hne. induction l as [|[k2 v2] l IH]; cbn.
  - by destruct (String.eqb_spec k k').
  - destruct (String.eqb_spec k' k2) as [->|]; cbn.
    + by destruct (String.eqb_spec k k2).
    + by rewrite IH.
Qed.

Lemma assoc_del_entry_ne {A} k k' (l : list (string * A)) :
  k ≠ k' → FS.assoc k (FS.del_entry k' l) = FS.assoc k l.
Proof.
  intros Hne. induction l as [|[k2 v2] l IH]; cbn; [done|].
  destruct (String.eqb_spec k' k2) as [->|]; cbn.
  - rewrite IH. by destruct (String.eqb_spec k k2).
  - by rewrite IH.
Qed.

(** The cache directory is an entry of the temporary directory. *)
Lemma cache_dir_components host url :
  FS.components (cache_dir host url)
  = FS.components (gettempdir host)
    ++ ["github_tools_" +:+ Py.str_take 12 (sha256_hexdigest host url)].
Proof.
  unfold cache_dir.
  set (h := Py.str_take 12 (sha256_hexdigest host url)).
  assert (no_slash h = true) as Hh
    by apply is_hex_no_slash, is_hex_take, hexdigest_is_hex.
  set (b := "github_tools_" +:+ h).
  assert (no_slash b = true) as Hb by exact Hh.
  assert (∀ a, FS.components (a +:+ "/" +:+ b) = FS.components a ++ [b]) as Hjoin.
  { intros a. unfold FS.components.
    rewrite split_slash_join, (split_slash_no_slash b Hb).
    by rewrite components_snoc. }
  unfold OS.path_join. change (Py.startswith b "/") with false. cbn match.
  destruct (String.eqb_spec (gettempdir host) "") as [->|_]; cbn [orb].
  - change ("" +:+ b) with b. unfold FS.components.
    by rewrite (split_slash_no_slash b Hb).
  - destruct (Py.ends_with (gettempdir host) Py.SLASH) eqn:He; [|apply Hjoin].
    destruct (ends_with_slash _ He) as (a' & ->).
    rewrite str_app_assoc, Hjoin. f_equal.
    unfold FS.components.
    change (a' +:+ "/") with (a' +:+ "/" +:+ "").
    rewrite split_slash_join, fold_left_app. done.
Qed.

(** X10.  The cache directory of a locator is the entry of the temporary
    directory named ["github_tools_"] followed by the first twelve
    hexadecimal digits of the locator's SHA-256 digest, whether or not the
    temporary directory is written with a trailing slash; two locators
    share a cache directory exactly when these twelve digits coincide. *)
Theorem X10_cache_directory_is_keyed_by_digest_prefix host url1 url2 :
  FS.components (cache_dir host url1)
  = FS.components (gettempdir host)
    ++ ["github_tools_" +:+ Py.str_take 12 (sha256_hexdigest host url1)]
  ∧ (FS.components (cache_dir host url1) = FS.components (cache_dir host url2)
     ↔ Py.str_take 12 (sha256_hexdigest host url1)
       = Py.str_take 12 (sha256_hexdigest host url2)).
Proof.
  split; [apply cache_dir_components|].
  rewrite !cache_dir_components. split.
  - intros H. apply app_inv_head in H. by injection H.
  - by intros ->.
Qed.

Section Frame.

Context (cs : list string).

Lemma del_frame ct n :
  ¬ ct `prefix_of` cs → ¬ cs `prefix_of` ct →
  FS.find cs (FS.del ct n) = FS.find cs n.
Proof using Type.
  revert cs n. induction ct as [|c ct IH]; intros cs n H1 H2.
  { destruct H1. apply prefix_nil. }
  destruct cs as [|c2 cs']; [destruct H2; apply prefix_nil|].
  destruct n as [d|g l|cause]; [done| |done].
  destruct ct as [|c' ct].
  - cbn [FS.del]. rewrite !find_step.
    destruct (decide (c2 = c)) as [->|Hne].
    + destruct H1. apply prefix_cons, prefix_nil.
    + by rewrite assoc_del_entry_ne.
  - rewrite del_step. destruct (FS.assoc c l) as [child|] eqn:Hc; [|done].
    rewrite !find_step. destruct (decide (c2 = c)) as [->|Hne].
    + rewrite assoc_set_entry_eq, Hc. apply IH.
      * intros Hp. apply H1. by apply prefix_cons.
      * intros Hp. apply H2. by apply prefix_cons.
    + by rewrite assoc_set_entry_ne.
Qed.

Lemma mkdirs_frame ct n n' :
  FS.mkdirs ct n = Ok n' →
  ¬ ct `prefix_of` cs → ¬ cs `prefix_of` ct →
  FS.find cs n' = FS.find cs n.
Proof using Type.
  revert cs n n'. induction ct as [|c ct IH]; intros cs n n' Hm H1 H2.
  { destruct H1. apply prefix_nil. }
  destruct cs as [|c2 cs']; [destruct H2; apply prefix_nil|].
  destruct n as [d|g l|cause]; [done| |done].
  rewrite mkdirs_step in Hm.
  destruct (FS.mkdirs ct (default (Dir None []) (FS.assoc c l)))
    as [child'|e] eqn:Hc; [|done].
  injection Hm as <-. rewrite !find_step.
  destruct (decide (c2 = c)) as [->|Hne]; [|by rewrite assoc_set_entry_ne].
  rewrite assoc_set_entry_eq.
  assert (¬ ct `prefix_of` cs') as H1' by (intros Hp; apply H1; by apply prefix_cons).
  assert (¬ cs' `prefix_of` ct) as H2' by (intros Hp; apply H2; by apply prefix_cons).
  rewrite (IH _ _ _ Hc H1' H2').
  destruct (FS.assoc c l) as [child|]; [done|].
  destruct cs' as [|c3 cs']; [destruct H2'; apply prefix_nil|done].
Qed.

Lemma put_frame ct v n n' :
  FS.put ct v n = Some n' →
  ¬ ct `prefix_of` cs → ¬ cs `prefix_of` ct →
  FS.find cs n' = FS.find cs n.
Proof using Type.
  revert cs n n'. induction ct as [|c ct IH]; intros cs n n' Hp H1 H2.
  { destruct H1. apply prefix_nil. }
  destruct cs as [|c2 cs']; [destruct H2; apply prefix_nil|].
  destruct n as [d|g l|cause]; [done| |done].
  destruct ct as [|c' ct].
  - injection Hp as <-. rewrite !find_step.
    destruct (decide (c2 = c)) as [->|Hne].
    + destruct H1. apply prefix_cons, prefix_nil.
    + by rewrite assoc_set_entry_ne.
  - rewrite put_step in Hp.
    destruct (FS.assoc c l) as [child|] eqn:Hc; [|done].
    destruct (FS.put (c' :: ct) v child) as [child'|] eqn:Hq; [|done].
    injection Hp as <-. rewrite !find_step.
    destruct (decide (c2 = c)) as [->|Hne]; [|by rewrite assoc_set_entry_ne].
    rewrite assoc_set_entry_eq, Hc. apply (IH _ _ _ Hq).
    + intros Hp. apply H1. by apply prefix_cons.
    + intros Hp. apply H2. by apply prefix_cons.
Qed.

Lemma bind_frame {A B} (m : M A) (k : A → M B) :
  (∀ fs, FS.find cs (m fs).1.2 = FS.find cs fs) →
  (∀ a fs, FS.find cs (k a fs).1.2 = FS.find cs fs) →
  ∀ fs, FS.find cs (bind m k fs).1.2 = FS.find cs fs.
Proof using Type.
  intros Hm Hk fs. unfold bind. specialize (Hm fs).
  destruct (m fs) as [[[a|msg] fs1] e1]; cbn in *; [|done].
  specialize (Hk a fs1). destruct (k a fs1) as [[r fs2] e2]; cbn in *.
  congruence.
Qed.

Lemma try_except_frame {A} (m : M A) (h : string → M A) :
  (∀ fs, FS.find cs (m fs).1.2 = FS.find cs fs) →
  (∀ e fs, FS.find cs (h e fs).1.2 = FS.find cs fs) →
  ∀ fs, FS.find cs (try_except m h fs).1.2 = FS.find cs fs.
Proof using Type.
  intros Hm Hh fs. unfold try_except. specialize (Hm fs).
  destruct (m fs) as [[[a|msg] fs1] e1]; cbn in *; [done|].
  specialize (Hh msg fs1). destruct (h msg fs1) as [[r fs2] e2]; cbn in *.
  congruence.
Qed.

Context (t : string).
Context (Hbelow : ¬ FS.components t `prefix_of` cs).
Context (Habove : ¬ cs `prefix_of` FS.components t).

Lemma rmtree_frame fs : FS.find cs (OS.rmtree t fs).1.2 = FS.find cs fs.
Proof using Hbelow Habove.
  unfold OS.rmtree. destruct (OS.lookup t fs) as [[d|g l|c]|]; try done.
  destruct (FS.leftover (Dir g l)) as [rest|]; cbn [fst snd].
  - destruct (FS.put (FS.components t) rest fs) as [fs'|] eqn:Hp; [|done].
    by apply (put_frame _ _ _ _ Hp).
  - by apply del_frame.
Qed.

Lemma makedirs_frame fs : FS.find cs (OS.makedirs t fs).1.2 = FS.find cs fs.
Proof using Hbelow Habove.
  unfold OS.makedirs. destruct (String.eqb t ""); [done|].
  destruct (FS.mkdirs (FS.components t) fs) as [fs'|e] eqn:Hm; cbn; [|done].
  by apply (mkdirs_frame _ _ _ Hm).
Qed.

Lemma clone_from_frame host url fs :
  FS.find cs (OS.clone_from host url t fs).1.2 = FS.find cs fs.
Proof using Hbelow Habove.
  assert (∀ v, FS.find cs match FS.put (FS.components t) v fs with
                          | Some fs' => fs'
                          | None => fs
                          end = FS.find cs fs) as Hput.
  { intros v. destruct (FS.put (FS.components t) v fs) as [fs'|] eqn:Hp; [|done].
    by apply (put_frame _ _ _ _ Hp). }
  unfold OS.clone_from.
  destruct (OS.lookup t fs) as [[d|g [|e l]|cause]|]; cbn; try done;
    (destruct (remote host url) as [files|cause' partial]; cbn; [|apply Hput]);
    specialize (Hput (Dir (Some (GitMeta false (Some url))) files));
    by destruct (FS.put _ _ fs).
Qed.

Lemma write_text_frame content fs :
  FS.find cs (OS.write_text t content fs).1.2 = FS.find cs fs.
Proof using Hbelow Habove.
  unfold OS.write_text.
  destruct (FS.put (FS.components t) (File (Text content)) fs) as [fs'|] eqn:Hp.
  - destruct (OS.lookup t fs) as [[| |]|]; cbn; try done;
      by apply (put_frame _ _ _ _ Hp).
  - by destruct (OS.lookup t fs) as [[| |]|].
Qed.

Lemma reuse_cached_frame url fs :
  FS.find cs (reuse_cached url t fs).1.2 = FS.find cs fs.
Proof using Hbelow Habove.
  destruct (reuse_cached url t fs) as [[r fs'] ev] eqn:H. cbn [fst snd].
  apply reuse_cached_inv in H as [(_ & -> & _)|(_ & [[_ ->]|[_ ->]])];
    [done..|apply rmtree_frame].
Qed.

Lemma acquire_frame host url fs :
  FS.find cs (acquire host url t fs).1.2 = FS.find cs fs.
Proof using Hbelow Habove.
  unfold acquire. apply bind_frame; [apply makedirs_frame|]. intros _.
  apply try_except_frame.
  - apply bind_frame; [apply clone_from_frame|done].
  - intros e. apply bind_frame; [apply rmtree_frame|done].
Qed.

End Frame.

Lemma clone_repo_frame host url fs cs :
  ¬ FS.components (cache_dir host url) `prefix_of` cs →
  ¬ cs `prefix_of` FS.components (cache_dir host url) →
  FS.find cs (clone_repo host url fs).1.2 = FS.find cs fs.
Proof.
  intros H1 H2. unfold clone_repo. revert fs.
  apply bind_frame; [done|]. intros is_local.
  destruct (negb _ && _); [done|].
  apply bind_frame; [by apply reuse_cached_frame|].
  intros [p|]; [done|]. by apply acquire_frame.
Qed.

Lemma cache_dirs_apart host url other :
  Py.str_take 12 (sha256_hexdigest host other)
  ≠ Py.str_take 12 (sha256_hexdigest host url) →
  ¬ FS.components (cache_dir host url)
    `prefix_of` FS.components (cache_dir host other).
Proof.
  intros Hne [k Hk]. rewrite !cache_dir_components, <- app_assoc in Hk.
  apply app_inv_head in Hk. cbn [app] in Hk. injection Hk as Hk _.
  by apply Hne.
Qed.

(** X11.  Resolving a locator changes nothing outside its cache directory
    and the directories leading to it: a path that neither lies in the
    cache directory nor leads to it denotes the same thing before and
    after, whatever the outcome.  In particular the cache directory of a
    locator with other digest digits is left as it is. *)
Theorem X11_resolve_leaves_other_paths_alone host url fs :
  (∀ cs,
     ¬ FS.components (cache_dir host url) `prefix_of` cs →
     ¬ cs `prefix_of` FS.components (cache_dir host url) →
     FS.find cs (clone_repo host url fs).1.2 = FS.find cs fs)
  ∧ ∀ other,
      Py.str_take 12 (sha256_hexdigest host other)
      ≠ Py.str_take 12 (sha256_hexdigest host url) →
      OS.lookup (cache_dir host other) (clone_repo host url fs).1.2
      = OS.lookup (cache_dir host other) fs.
Proof.
  split; [intros cs; apply clone_repo_frame|].
  intros other Hne. apply clone_repo_frame.
  - by apply cache_dirs_apart.
  - apply cache_dirs_apart. intros Heq. by apply Hne.
Qed.

Lemma X11_resolve_leaves_other_paths_alone_witness :
  Py.str_take 12 (sha256_hexdigest demo_host missing_url)
  ≠ Py.str_take 12 (sha256_hexdigest demo_host demo_url)
  ∧ OS.lookup (cache_dir demo_host missing_url)
      (clone_repo demo_host demo_url
         (Dir None
            [("tmp",
              Dir None
                [("github_tools_b10c7a55e0d9",
                  Dir (Some (GitMeta false (Some missing_url)))
                    [("README.md", File (Text "kept"))])])])).1.2
    = Some (Dir (Some (GitMeta false (Some missing_url)))
              [("README.md", File (Text "kept"))]).
Proof.
  assert (Py.str_take 12 (sha256_hexdigest demo_host missing_url)
          ≠ Py.str_take 12 (sha256_hexdigest demo_host demo_url)) as Hne
    by (intros H; vm_compute in H; discriminate H).
  split; [exact Hne|].
  exact (eq_trans
           (proj2 (X11_resolve_leaves_other_paths_alone demo_host demo_url _)
              missing_url Hne)
           eq_refl).
Defined.

(** ** An existing local path *)

(** X12.  A locator that does not start with ["https://github.com/"] and
    names an existing path is used in place (the empty string names no
    path: [os.path.exists('')] is false).  Resolving it returns the locator
    itself; the listing is the rendering of what the path denotes, or
    ["Error: "] and the reason when that cannot be listed; reading files
    returns one entry per requested path.  None of the three removes,
    creates, clones or writes anything, and the filesystem stays as it
    was. *)
Theorem X12_local_path_is_used_in_place host url fs n :
  url ≠ "" →
  Py.startswith url "https://github.com/" = false →
  OS.lookup url fs = Some n →
  clone_repo host url fs = (Ok url, fs, [])
  ∧ git_directory_structure host url fs
    = (Ok match get_directory_tree n "" with
          | Ok text => text
          | Raise e => "Error: " +:+ e
          end, fs, [])
  ∧ ∀ file_paths,
      ∃ results,
        git_read_important_files host url file_paths fs = (Ok results, fs, [])
        ∧ dom results = list_to_set file_paths.
Proof.
  intros _ Hg Hl.
  assert (clone_repo host url fs = (Ok url, fs, [])) as Hclone.
  { unfold clone_repo. rewrite (bind_pure_ok _ _ fs _ eq_refl).
    by rewrite Hg, Hl. }
  split_and!; [done| |].
  - unfold git_directory_structure. rewrite try_except_ret.
    unfold directory_structure_body, bind. rewrite Hclone.
    unfold get_directory_tree_at. rewrite Hl.
    by destruct (get_directory_tree n "").
  - intros file_paths.
    destruct (read_loop_run url file_paths ∅ fs) as (results & Hrun & Hdom & _).
    exists results. split.
    + unfold git_read_important_files, try_except, read_files_body, bind.
      by rewrite Hclone, Hrun.
    + by rewrite Hdom, dom_empty_L, (left_id_L ∅ (∪)).
Qed.

Lemma X12_local_path_is_used_in_place_witness :
  "work" ≠ ""
  ∧ Py.startswith "work" "https://github.com/" = false
  ∧ OS.lookup "work" (Dir None [("work", repo_tree)]) = Some repo_tree
  ∧ clone_repo demo_host "work" (Dir None [("work", repo_tree)])
    = (Ok "work", Dir None [("work", repo_tree)], []).
Proof.
  assert ("work" ≠ "") as Hne by discriminate.
  split_and!; [exact Hne|reflexivity|reflexivity|].
  exact (proj1 (X12_local_path_is_used_in_place demo_host "work"
                  (Dir None [("work", repo_tree)]) repo_tree
                  Hne eq_refl eq_refl)).
Defined.

(** ** [get_directory_tree]: when it returns, and what it never looks at *)

(** When the loop returns, every subdirectory it descended into was
    rendered. *)
Lemma tree_loop_renders (kids : list (string * subtree)) prefix len entries :
  ∀ i output s,
    tree_loop kids prefix len i entries output = Ok s →
    ∀ entry render,
      entry ∈ entries → shown entry = true →
      FS.assoc entry kids = Some (Some render) →
      ∃ next sub, render (prefix +:+ next) = Ok sub.
Proof.
  induction entries as [|e rest IH]; intros i output s H entry render Hin Hs Hk.
  { by apply elem_of_nil in Hin. }
  cbn [tree_loop] in H. apply elem_of_cons in Hin as [->|Hin].
  - unfold shown in Hs. apply negb_true_iff in Hs. rewrite Hs, Hk in H.
    destruct (render _) as [sub|msg] eqn:Hr; [eauto|done].
  - destruct (Py.startswith e ".git"); [by eapply IH|].
    destruct (FS.assoc e kids) as [[r|]|]; [|by eapply IH..].
    destruct (r _); [by eapply IH|done].
Qed.

Lemma renders_readable n :
  wf n → ∀ prefix s, get_directory_tree n prefix = Ok s → readable n.
Proof.
  induction n as [d|g l IH|cause] using node_ind'; intros Hwf prefix s H;
    [done| |done].
  inversion Hwf as [| |? ? Hnd Hkids]; subst.
  rewrite get_directory_tree_Dir in H.
  constructor. rewrite Forall_forall in IH, Hkids. apply Forall_forall.
  intros [k c] Hin Hs Hd. cbn in Hs, Hd |- *.
  destruct (tree_loop_renders _ _ _ _ _ _ _ H k (get_directory_tree c))
    as (next & sub & Hsub); [|done| |].
  - rewrite merge_sort_Permutation. change k with ((k, c).1).
    by apply list_elem_of_fmap_2.
  - by rewrite assoc_kids_of, (elem_assoc _ _ _ Hnd Hin); cbn; rewrite Hd.
  - exact (IH _ Hin (Hkids _ Hin) _ _ Hsub).
Qed.

(** X13.  In a tree without duplicate names, [get_directory_tree] returns
    exactly when the path is a directory that can be listed, and so is
    every directory below it that is not under a name starting with
    [.git]; a regular file or an unlistable directory under a skipped name
    does not matter, one anywhere else makes the whole call raise. *)
Theorem X13_listing_returns_iff_readable n prefix :
  wf n → ((∃ text, get_directory_tree n prefix = Ok text) ↔ readable n).
Proof.
  intros Hwf. split.
  - intros [text H]. by eapply renders_readable.
  - intros Hr. by apply readable_renders.
Qed.

Lemma X13_listing_returns_iff_readable_witness :
  wf repo_tree ∧ readable repo_tree
  ∧ ¬ readable (Dir None [("src", NoAccess "[Errno 13] Permission denied")]).
Proof.
  assert (wf repo_tree) as Hwf.
  { constructor; [by apply (bool_decide_unpack _)|].
    repeat (constructor; cbn); by apply (bool_decide_unpack _). }
  assert (wf (Dir None [("src", NoAccess "[Errno 13] Permission denied")]))
    as Hwf2.
  { constructor; [by apply (bool_decide_unpack _)|]. repeat constructor. }
  split; [exact Hwf|]. split.
  - apply (X13_listing_returns_iff_readable repo_tree "" Hwf).
    eexists. reflexivity.
  - intros Hr.
    apply (X13_listing_returns_iff_readable _ "" Hwf2) in Hr as [text Hr].
    discriminate Hr.
Defined.

Lemma tree_loop_ext_shown (kids1 kids2 : list (string * subtree)) prefix len
    entries :
  (∀ entry, entry ∈ entries → shown entry = true →
     kid_agree (FS.assoc entry kids1) (FS.assoc entry kids2)) →
  ∀ i output,
    tree_loop kids1 prefix len i entries output
    = tree_loop kids2 prefix len i entries output.
Proof.
  induction entries as [|entry rest IH]; intros Hk i output; [done|].
  assert (∀ entry, entry ∈ rest → shown entry = true →
            kid_agree (FS.assoc entry kids1) (FS.assoc entry kids2)) as Hrest
    by (intros ???; apply Hk; [by right|done]).
  specialize (IH Hrest). cbn [tree_loop].
  destruct (Py.startswith entry ".git") eqn:Es; [apply IH|].
  assert (shown entry = true) as Hs by (unfold shown; by rewrite Es).
  pose proof (Hk entry ltac:(left) Hs) as Ha. unfold kid_agree in Ha.
  destruct (FS.assoc entry kids1) as [[f|]|], (FS.assoc entry kids2) as [[h|]|];
    try done.
  rewrite Ha. by destruct (h _).
Qed.

(** X14.  What lies under a name starting with [.git] is never looked at:
    two listings with the same names in the same order, which agree on
    what every other name denotes, are rendered alike -- whether a skipped
    name denotes a file, a directory or something that cannot be listed,
    and whatever repository data the directory carries. *)
Theorem X14_skipped_entries_are_never_inspected g1 g2 l1 l2 prefix :
  Forall2 (λ a b, a.1 = b.1 ∧ (shown a.1 = true → a.2 = b.2)) l1 l2 →
  get_directory_tree (Dir g1 l1) prefix = get_directory_tree (Dir g2 l2) prefix.
Proof.
  intros Hall. rewrite !get_directory_tree_Dir.
  assert (l1.*1 = l2.*1) as <-.
  { induction Hall as [|a b l1 l2 [Hab _] _ IH]; cbn; [done|].
    by rewrite Hab, IH. }
  apply tree_loop_ext_shown. intros entry _ Hs.
  induction Hall as [|[k1 c1] [k2 c2] l1 l2 [Hab Hc] _ IH]; [done|].
  cbn in Hab, Hc |- *. subst k2.
  destruct (String.eqb_spec entry k1) as [->|_]; [|exact IH].
  rewrite <- (Hc Hs). by destruct (FS.is_dir c1).
Qed.

Lemma X14_skipped_entries_are_never_inspected_witness :
  get_directory_tree repo_tree ""
  = get_directory_tree
      (Dir (Some (GitMeta false None))
         [("src", Dir None [("b.py", File (Text "")); ("a.py", File (Text ""))]);
          ("README.md", File (Text ""));
          (".git", Dir None [("HEAD", File (Text "ref"))]);
          (".gitignore", NoAccess "[Errno 13] Permission denied")]) "".
Proof.
  apply X14_skipped_entries_are_never_inspected.
  repeat (constructor; [split; [reflexivity|cbn; intros; first [reflexivity|discriminate]]|]).
  constructor.
Defined.

Lemma str_length_app s t :
  String.length (s +:+ t) = (String.length s + String.length t)%nat.
Proof.
  induction s as [|c s IH]; [done|].
  rewrite str_app_cons. cbn [String.length]. by rewrite IH.
Qed.

Lemma tree_loop_grows (kids : list (string * subtree)) prefix len entries :
  ∀ i output s,
    tree_loop kids prefix len i entries output = Ok s →
    (String.length output + length (List.filter shown entries)
     ≤ String.length s)%nat.
Proof.
  induction entries as [|e rest IH]; intros i output s H; cbn [tree_loop] in H.
  { injection H as <-. cbn. lia. }
  cbn [List.filter]. unfold shown at 1.
  destruct (Py.startswith e ".git"); cbn [negb]; [by eapply IH|].
  set (line := prefix +:+ (if Z.of_nat i =? Z.of_nat len - 1 then "└── " else "├── ")
               +:+ e +:+ Py.nl) in H.
  assert (1 ≤ String.length line)%nat as Hline.
  { unfold line. rewrite !str_length_app. cbn. lia. }
  destruct (FS.assoc e kids) as [[r|]|].
  - destruct (r _) as [sub|]; [|done]. apply IH in H.
    rewrite !str_length_app in H. cbn [length]. lia.
  - apply IH in H. rewrite !str_length_app in H. cbn [length]. lia.
  - apply IH in H. rewrite !str_length_app in H. cbn [length]. lia.
Qed.

Lemma tree_loop_all_skipped (kids : list (string * subtree)) prefix len entries :
  List.filter shown entries = [] →
  ∀ i output, tree_loop kids prefix len i entries output = Ok output.
Proof.
  induction entries as [|e rest IH]; intros Hf i output; [done|].
  cbn [tree_loop]. cbn [List.filter] in Hf. unfold shown at 1 in Hf.
  destruct (Py.startswith e ".git"); [by apply IH|done].
Qed.

(** X15.  The listing of a directory is the empty string exactly when the
    directory has no entry other than names starting with [.git]: an empty
    directory and a directory holding only [.git] and [.gitignore] are
    both rendered as nothing, and nothing else is. *)
Theorem X15_empty_listing_iff_nothing_shown g l prefix :
  get_directory_tree (Dir g l) prefix = Ok "" ↔ visible l = [].
Proof.
  rewrite get_directory_tree_Dir. unfold visible. split.
  - intros H. apply tree_loop_grows in H. cbn in H.
    destruct (List.filter shown _); [done|cbn in H; lia].
  - intros H. by apply tree_loop_all_skipped.
Qed.

(** ** [git_read_important_files]: which file a requested path denotes *)

Lemma fold_step_names l acc :
  forallb proper_name l = true → fold_left FS.step l acc = acc ++ l.
Proof.
  revert acc. induction l as [|c l IH]; intros acc Hn; cbn [fold_left].
  { by rewrite app_nil_r. }
  cbn [forallb] in Hn. apply andb_true_iff in Hn as [Hc Hn].
  rewrite (IH _ Hn). unfold FS.step. unfold proper_name in Hc.
  apply negb_true_iff in Hc.
  destruct (String.eqb c "") eqn:E1; [done|].
  destruct (String.eqb c ".") eqn:E2; [done|].
  destruct (String.eqb c "..") eqn:E3; [done|].
  cbn [orb]. by rewrite <- app_assoc.
Qed.

Lemma proper_path_relative p :
  proper_path p = true → Py.startswith p "/" = false.
Proof.
  unfold proper_path. destruct p as [|c r]; [done|]. cbn [FS.split_slash].
  unfold Py.startswith. cbn [String.prefix].
  destruct (Ascii.eqb_spec c Py.SLASH) as [->|Hne]; [done|]. intros _.
  destruct (ascii_dec "/" c) as [<-|_]; [done|]. done.
Qed.

Lemma find_app cs ds :
  ∀ n, FS.find (cs ++ ds) n = FS.find cs n ≫= FS.find ds.
Proof.
  induction cs as [|c cs IH]; intros n; [done|].
  destruct n as [d|g l|cause]; [done| |done].
  cbn [app]. rewrite !find_step. by destruct (FS.assoc c l).
Qed.

(** [os.path.join] with a relative path, then resolution: the second path
    is resolved from where the first one leads. *)
Lemma path_join_relative a b :
  Py.startswith b "/" = false →
  FS.components (OS.path_join a b)
  = fold_left FS.step (FS.split_slash b) (FS.components a).
Proof.
  intros Hb. unfold OS.path_join. rewrite Hb.
  assert (∀ a', FS.components (a' +:+ "/" +:+ b)
                = fold_left FS.step (FS.split_slash b) (FS.components a'))
    as Hjoin.
  { intros a'. unfold FS.components. by rewrite split_slash_join, fold_left_app. }
  destruct (String.eqb_spec a "") as [->|_]; cbn [orb]; [done|].
  destruct (Py.ends_with a Py.SLASH) eqn:He; [|apply Hjoin].
  destruct (ends_with_slash _ He) as (a' & ->).
  rewrite str_app_assoc, Hjoin. f_equal. unfold FS.components.
  change (a' +:+ "/") with (a' +:+ "/" +:+ "").
  by rewrite split_slash_join, fold_left_app.
Qed.

Lemma read_outcome_spec (results : gmap string string) p n :
  match n with
  | Some (File (Text raw)) => results !! p = Some (Py.universal_newlines raw)
  | Some (File (Unreadable cause)) =>
      results !! p = Some ("Error reading file: " +:+ cause)
  | _ => results !! p = Some "Error: File not found"
  end →
  results !! p = Some (read_outcome n).
Proof. by destruct n as [[[?|?]| |]|]. Qed.

(** X16.  A requested path is opened relative to the workspace, and
    nothing confines it there.  A path that starts with a slash is opened
    as it is, whatever the workspace.  A relative path made of names is
    opened by looking up its names one after the other, starting from the
    workspace.  The entry stored for the path is the content, or the error
    text, of exactly that file. *)
Theorem X16_requested_path_resolution host url file_paths fs repo_path fs1 ev :
  clone_repo host url fs = (Ok repo_path, fs1, ev) →
  ∃ results,
    git_read_important_files host url file_paths fs = (Ok results, fs1, ev)
    ∧ ∀ p, p ∈ file_paths →
        (Py.startswith p "/" = true →
         results !! p = Some (read_outcome (OS.lookup p fs1)))
        ∧ (proper_path p = true →
           results !! p
           = Some (read_outcome
                     (OS.lookup repo_path fs1 ≫= FS.find (FS.split_slash p)))).
Proof.
  intros Hclone.
  destruct (read_loop_run repo_path file_paths ∅ fs1)
    as (results & Hrun & _ & _ & Hin).
  exists results. split.
  - unfold git_read_important_files, try_except, read_files_body, bind.
    rewrite Hclone, Hrun. by rewrite app_nil_r.
  - intros p Hp. specialize (Hin p Hp). apply read_outcome_spec in Hin.
    split.
    + intros Habs. unfold OS.path_join in Hin. by rewrite Habs in Hin.
    + intros Hnames. unfold OS.lookup in Hin |- *.
      by rewrite (path_join_relative _ _ (proper_path_relative _ Hnames)),
        (fold_step_names _ _ Hnames), find_app in Hin.
Qed.

Lemma X16_requested_path_resolution_witness :
  clone_repo demo_host demo_url
    (Dir None [("tmp", Dir None []); ("etc", Dir None [("passwd", File (Text "root"))])])
  = (Ok "/tmp/github_tools_3e1f0c2a9b7d",
     (clone_repo demo_host demo_url
        (Dir None [("tmp", Dir None []);
                   ("etc", Dir None [("passwd", File (Text "root"))])])).1.2,
     (clone_repo demo_host demo_url
        (Dir None [("tmp", Dir None []);
                   ("etc", Dir None [("passwd", File (Text "root"))])])).2)
  ∧ ∃ results,
      (git_read_important_files demo_host demo_url ["/etc/passwd"; "README.md"]
         (Dir None [("tmp", Dir None []);
                    ("etc", Dir None [("passwd", File (Text "root"))])])).1.1
      = Ok results
      ∧ results !! "/etc/passwd" = Some "root"
      ∧ results !! "README.md" = Some ("hello" +:+ Py.nl).
Proof.
  assert (clone_repo demo_host demo_url
            (Dir None [("tmp", Dir None []);
                       ("etc", Dir None [("passwd", File (Text "root"))])])
          = (Ok "/tmp/github_tools_3e1f0c2a9b7d",
             (clone_repo demo_host demo_url
                (Dir None [("tmp", Dir None []);
                           ("etc", Dir None [("passwd", File (Text "root"))])])).1.2,
             (clone_repo demo_host demo_url
                (Dir None [("tmp", Dir None []);
                           ("etc", Dir None [("passwd", File (Text "root"))])])).2))
    as Hrun by reflexivity.
  split; [exact Hrun|].
  destruct (X16_requested_path_resolution demo_host demo_url
              ["/etc/passwd"; "README.md"] _ _ _ _ Hrun)
    as (results & Hread & Hp).
  exists results. split; [by rewrite Hread|]. split.
  - exact (proj1 (Hp "/etc/passwd" ltac:(left)) eq_refl).
  - exact (proj2 (Hp "README.md" ltac:(right; left)) eq_refl).
Defined.

(** X17.  What is returned depends on the set of requested paths only:
    neither their order nor a repetition changes the mapping, the
    filesystem or the effects. *)
Theorem X17_read_result_ignores_order_and_repetition host url ps1 ps2 fs :
  (∀ p, p ∈ ps1 ↔ p ∈ ps2) →
  git_read_important_files host url ps1 fs
  = git_read_important_files host url ps2 fs.
Proof.
  intros Hsame. unfold git_read_important_files, try_except, read_files_body, bind.
  destruct (clone_repo host url fs) as [[[repo_path|msg] fs1] ev]; [|done].
  destruct (read_loop_run repo_path ps1 ∅ fs1) as (r1 & -> & _ & Hout1 & Hin1).
  destruct (read_loop_run repo_path ps2 ∅ fs1) as (r2 & -> & _ & Hout2 & Hin2).
  do 2 f_equal. f_equal. apply map_eq. intros p.
  destruct (decide (p ∈ ps1)) as [Hp|Hp].
  - rewrite (read_outcome_spec _ _ _ (Hin1 p Hp)).
    by rewrite (read_outcome_spec _ _ _ (Hin2 p (proj1 (Hsame p) Hp))).
  - rewrite (Hout1 p Hp). symmetry. apply Hout2. by rewrite <- Hsame.
Qed.

Lemma X17_read_result_ignores_order_and_repetition_witness :
  (∀ p, p ∈ ["README.md"; "bin"; "README.md"] ↔ p ∈ ["bin"; "README.md"])
  ∧ git_read_important_files demo_host demo_url
      ["README.md"; "bin"; "README.md"] empty_tmp
    = git_read_important_files demo_host demo_url ["bin"; "README.md"] empty_tmp.
Proof.
  assert (∀ p : string,
            p ∈ ["README.md"; "bin"; "README.md"] ↔ p ∈ ["bin"; "README.md"])
    as Hsame.
  { intros p. rewrite !elem_of_cons, !elem_of_nil. tauto. }
  split; [exact Hsame|].
  exact (X17_read_result_ignores_order_and_repetition demo_host demo_url
           _ _ empty_tmp Hsame).
Defined.

(** ** [git_write_file] *)





(** *** Writing, then reading *)






(** ** [get_directory_tree]: who gets the terminal glyph *)

(** X20.  The terminal glyph goes to the name that is last among all names
    of the directory, skipped ones included.  When that name is shown it
    is the last item, it carries the terminal glyph and every item before
    it the mid-branch glyph; when that name starts with [.git] no item
    carries the terminal glyph, the last one neither; a directory without
    entries is rendered as the empty string. *)
Theorem X20_terminal_glyph_follows_last_name g l prefix :
  readable (Dir g l) → wf (Dir g l) →
  match last (merge_sort String.le (l.*1)) with
  | Some e =>
      if shown e then
        ∃ init it,
          get_directory_tree (Dir g l) prefix
          = Ok (Py.join_lines (map (render_item prefix) (init ++ [it])))
          ∧ name it = e ∧ glyph it = "└── "
          ∧ Forall (λ it', glyph it' = "├── ") init
      else
        ∃ items,
          get_directory_tree (Dir g l) prefix
          = Ok (Py.join_lines (map (render_item prefix) items))
          ∧ map name items = visible l
          ∧ Forall (λ it, glyph it = "├── ") items
  | None => get_directory_tree (Dir g l) prefix = Ok ""
  end.
Proof.
  intros Hr Hwf.
  destruct (last (merge_sort String.le (l.*1))) as [e|] eqn:Hlast.
  - unfold shown. destruct (Py.startswith e ".git") eqn:He; cbn [negb].
    + by apply (skipped_last_entry_no_terminal_glyph g l prefix e).
    + by apply (shown_last_entry_terminal_glyph g l prefix e).
  - apply last_None in Hlast. by rewrite get_directory_tree_Dir, Hlast.
Qed.

Lemma X20_terminal_glyph_follows_last_name_witness :
  readable dotfiles_tree ∧ wf dotfiles_tree
  ∧ ∃ items,
      get_directory_tree dotfiles_tree ""
      = Ok (Py.join_lines (map (render_item "") items))
      ∧ map name items = [".env"]
      ∧ Forall (λ it, glyph it = "├── ") items.
Proof.
  assert (readable dotfiles_tree) as Hr.
  { repeat (constructor; cbn; try (intros; discriminate)). }
  assert (wf dotfiles_tree) as Hwf.
  { constructor; [by apply (bool_decide_unpack _)|]. repeat constructor. }
  split; [exact Hr|]. split; [exact Hwf|].
  exact (X20_terminal_glyph_follows_last_name None _ "" Hr Hwf).
Defined.

(** ** [clone_repo]: the first use of a locator *)

Lemma find_snoc cs b :
  ∀ n g l, FS.find cs n = Some (Dir g l) → FS.find (cs ++ [b]) n = FS.assoc b l.
Proof.
  induction cs as [|c cs IH]; intros n g l Hf.
  - injection Hf as ->. cbn. by destruct (FS.assoc b l).
  - destruct n as [d|g0 l0|cause]; [done| |done].
    rewrite find_step in Hf. cbn [app]. rewrite find_step.
    destruct (FS.assoc c l0) as [child|]; [|done]. by eapply IH.
Qed.

Lemma mkdirs_new_child cs b :
  ∀ n g l,
    FS.find cs n = Some (Dir g l) → FS.assoc b l = None →
    ∃ n', FS.mkdirs (cs ++ [b]) n = Ok n'
          ∧ FS.find (cs ++ [b]) n' = Some (Dir None []).
Proof.
  induction cs as [|c cs IH]; intros n g l Hf Hb.
  - injection Hf as ->. cbn [app]. rewrite mkdirs_step, Hb.
    cbn [default from_option FS.mkdirs].
    eexists. split; [done|]. by rewrite find_step, assoc_set_entry_eq.
  - destruct n as [d|g0 l0|cause]; [done| |done].
    rewrite find_step in Hf. cbn [app]. rewrite mkdirs_step.
    destruct (FS.assoc c l0) as [child|] eqn:Hc; [|done].
    destruct (IH child g l Hf Hb) as (child' & Hm & Hf').
    cbn [default from_option id]. unfold id. rewrite Hm.
    eexists. split; [done|]. by rewrite find_step, assoc_set_entry_eq.
Qed.

(** X21.  The first use of a locator: when the temporary directory is
    there and holds nothing under the locator's cache name, the cache
    directory is created empty and cloned into.  If the remote can be
    cloned, the call returns the cache directory, which holds the cloned
    files with the locator as origin; if not, the call raises
    ["Failed to clone repository: "] with git's reason, and the cache
    directory is gone again together with whatever the clone had left in
    it. *)
Theorem X21_first_use_clones_into_fresh_directory host url fs g l :
  Py.startswith url "https://github.com/" = true ∨ OS.lookup url fs = None →
  OS.lookup (gettempdir host) fs = Some (Dir g l) →
  OS.lookup (cache_dir host url) fs = None →
  ∃ fs',
    match remote host url with
    | Cloned files =>
        clone_repo host url fs
        = (Ok (cache_dir host url), fs',
           [Makedirs (cache_dir host url);
            CloneFrom url (cache_dir host url) None])
        ∧ OS.lookup (cache_dir host url) fs'
          = Some (Dir (Some (GitMeta false (Some url))) files)
    | Broken cause partial =>
        clone_repo host url fs
        = (Raise ("Failed to clone repository: " +:+ cause), fs',
           [Makedirs (cache_dir host url);
            CloneFrom url (cache_dir host url) (Some cause);
            Rmtree (cache_dir host url)])
        ∧ OS.lookup (cache_dir host url) fs' = None
    end.
Proof.
  set (t := cache_dir host url). intros Hr Htmp Hl.
  assert (clone_repo host url fs = acquire host url t fs) as ->.
  { rewrite clone_repo_remote by done. fold t.
    assert (reuse_cached url t fs = (Ok None, fs, [])) as Hreuse.
    { unfold reuse_cached, bind, OS.path_exists, ret. by rewrite Hl. }
    unfold bind at 1. rewrite Hreuse.
    by destruct (acquire host url t fs) as [[? ?] ?]. }
  assert (∃ fs1, OS.makedirs t fs = (Ok (), fs1, [Makedirs t])
                 ∧ OS.lookup t fs1 = Some (Dir None [])) as (fs1 & Hmk & Hl1).
  { unfold OS.lookup in Hl, Htmp |- *. unfold OS.makedirs.
    unfold t at 1. rewrite cache_dir_nonempty. fold t.
    unfold t in Hl |- *. rewrite cache_dir_components in Hl |- *.
    rewrite (find_snoc _ _ _ _ _ Htmp) in Hl.
    destruct (mkdirs_new_child _ _ _ _ _ Htmp Hl) as (fs1 & -> & Hf).
    by exists fs1. }
  rewrite (acquire_after_makedirs _ _ _ _ _ Hmk).
  unfold OS.clone_from. rewrite Hl1. cbv beta zeta.
  destruct (remote host url) as [files|cause partial] eqn:Hremote.
  - destruct (put_find _ (Dir (Some (GitMeta false (Some url))) files) _ _ Hl1)
      as (fs2 & -> & Hf2).
    by exists fs2.
  - destruct (put_find _ (Dir None partial) _ _ Hl1) as (fs2 & -> & Hf2).
    destruct (rmtree_dir t fs2 None partial Hf2 (cache_dir_not_root host url))
      as (fs3 & Hrm & Hgone).
    rewrite (debris_is_removable host _ _ _ Hremote) in Hgone.
    exists fs3. rewrite Hrm. done.
Qed.

Lemma X21_first_use_clones_into_fresh_directory_witness :
  (Py.startswith demo_url "https://github.com/" = true
   ∨ OS.lookup demo_url empty_tmp = None)
  ∧ OS.lookup (gettempdir demo_host) empty_tmp = Some (Dir None [])
  ∧ OS.lookup (cache_dir demo_host demo_url) empty_tmp = None
  ∧ ∃ fs',
      clone_repo demo_host demo_url empty_tmp
      = (Ok (cache_dir demo_host demo_url), fs',
         [Makedirs (cache_dir demo_host demo_url);
          CloneFrom demo_url (cache_dir demo_host demo_url) None]).
Proof.
  assert (Py.startswith demo_url "https://github.com/" = true
          ∨ OS.lookup demo_url empty_tmp = None) as Hr by (left; reflexivity).
  split; [exact Hr|]. split; [reflexivity|]. split; [reflexivity|].
  destruct (X21_first_use_clones_into_fresh_directory demo_host demo_url
              empty_tmp None [] Hr eq_refl eq_refl) as (fs' & Hrun).
  exists fs'. exact (proj1 Hrun).
Defined.
